(** * helm/provider.go: provider schema, configuration resolution and the
      Helm action-configuration factory.

    A shallow embedding of [src/helm/provider.go].  Go values of type
    [interface{}] are a small tagged union; a pointer is an [option], [None]
    being nil, and the pointer to a [ConfigFlags] object is its address in an
    explicit heap; panics are an explicit outcome; the process environment is
    an argument, and what the code does to the outside (the debug log, the
    mutex, the call of the Helm library) is recorded in a trace. *)

From Stdlib Require Import String Ascii List Bool.
From stdpp Require Import base option gmap strings list.

Local Open Scope string_scope.

(** ** Dynamic values, errors and panics *)

(** The dynamic values that travel through [interface{}] in this file. *)
Inductive value : Type :=
| VNil
| VBool (b : bool)
| VString (s : string).

(** [schema.ValueType], restricted to the types the provider declares. *)
Inductive ValueType : Type := TypeBool | TypeString | TypeList.

(** [ValueType.Zero]. *)
Definition Zero (t : ValueType) : value :=
  match t with
  | TypeBool => VBool false
  | TypeString => VString ""
  | TypeList => VNil
  end.

(** A Go [error] is represented by its message. *)
Definition error : Type := string.

(** Panics: the two run-time panics this code can raise, and the value a
    library passes to [panic] itself. *)
Inductive panic : Type :=
| NilPointerDereference
| InterfaceConversion
| Raised (msg : string).

(** How a call ends: it returns, it panics, or it never proceeds because it
    waits for a mutex that stays held. *)
Inductive outcome (A : Type) : Type :=
| Return (a : A)
| Panic (p : panic)
| Blocked.
Arguments Return {A} a.
Arguments Panic {A} p.
Arguments Blocked {A}.

#[global] Instance outcome_ret : MRet outcome := @Return.
#[global] Instance outcome_bind : MBind outcome := fun A B f x =>
  match x with
  | Return a => f a
  | Panic p => Panic p
  | Blocked => Blocked
  end.

(** [v.(bool)] and [v.(string)]: a failed type assertion panics. *)
Definition assertBool (v : value) : outcome bool :=
  match v with
  | VBool b => Return b
  | _ => Panic InterfaceConversion
  end.

Definition assertString (v : value) : outcome string :=
  match v with
  | VString s => Return s
  | _ => Panic InterfaceConversion
  end.

(** ** The process environment *)

(** [os.Getenv]: the value of the variable, empty when it is not set. *)
Definition Getenv (env : gmap string string) (k : string) : string :=
  default "" (env !! k).

(** ** Schema declarations *)

(** [schema.SchemaDefaultFunc]. The two constructors of the SDK that this
    file uses build closures over their arguments; a closure is represented
    by the constructor and the arguments it captured, and [callDefaultFunc]
    runs it.  Neither returns an error. *)
Inductive SchemaDefaultFunc : Type :=
| EnvDefaultFunc (k : string) (dv : value)
| MultiEnvDefaultFunc (ks : list string) (dv : value).

(** The loop of [schema.MultiEnvDefaultFunc]: the first variable of [ks]
    that is not empty, else [dv]. *)
Fixpoint multiEnv (env : gmap string string) (ks : list string) (dv : value) : value :=
  match ks with
  | [] => dv
  | k :: ks' =>
      let v := Getenv env k in
      if negb (String.eqb v "") then VString v else multiEnv env ks' dv
  end.

(** Calling the closure in the process environment [env]. *)
Definition callDefaultFunc (f : SchemaDefaultFunc) (env : gmap string string) : value :=
  match f with
  | EnvDefaultFunc k dv =>
      let v := Getenv env k in
      if negb (String.eqb v "") then VString v else dv
  | MultiEnvDefaultFunc ks dv => multiEnv env ks dv
  end.

(** [schema.Schema], with the attributes this file sets ([Description] and
    [Elem] carry no behaviour here). [ValidateFunc] returns the warnings and
    the errors. *)
Record Schema : Type := mkSchema {
  Type_ : ValueType;
  Optional : bool;
  MaxItems : nat;
  DefaultFunc : option SchemaDefaultFunc;
  ValidateFunc : option (value -> string -> outcome (list string * list error))
}.

Definition envField (t : ValueType) (k : string) (dv : value) : Schema :=
  mkSchema t true 0 (Some (EnvDefaultFunc k dv)) None.

(** The schema map literal of [kubernetesResource()], in source order. *)
Definition kubernetesFields : list (string * Schema) :=
  [ ("host", envField TypeString "KUBE_HOST" (VString ""));
    ("username", envField TypeString "KUBE_USER" (VString ""));
    ("password", envField TypeString "KUBE_PASSWORD" (VString ""));
    ("token", envField TypeString "KUBE_BEARER_TOKEN" (VString ""));
    ("insecure", envField TypeBool "KUBE_INSECURE" (VBool false));
    ("client_certificate", envField TypeString "KUBE_CLIENT_CERT_DATA" (VString ""));
    ("client_key", envField TypeString "KUBE_CLIENT_KEY_DATA" (VString ""));
    ("cluster_ca_certificate", envField TypeString "KUBE_CLUSTER_CA_CERT_DATA" (VString ""));
    ("config_path",
      mkSchema TypeString true 0
        (Some (MultiEnvDefaultFunc ["KUBE_CONFIG"; "KUBECONFIG"] (VString "~/.kube/config")))
        None);
    ("config_context", envField TypeString "KUBE_CTX" (VString ""));
    ("in_cluster", mkSchema TypeBool true 0 None None);
    ("load_config_file", envField TypeBool "KUBE_LOAD_CONFIG_FILE" (VBool true)) ].

(** [kubernetesResource().Schema]. *)
Definition kubernetesResource : gmap string Schema := list_to_map kubernetesFields.

Definition k8sPrefix : string := "kubernetes.0.".

(** ** ResourceData and its accessors *)

(** The type found in the provider schema at each address the code reads:
    the top-level attributes of [Provider()] and, under the list attribute
    [kubernetes], the fields of its single element. *)
Definition topLevelTypes : list (string * ValueType) :=
  [ ("debug", TypeBool);
    ("plugins_path", TypeString);
    ("registry_config_path", TypeString);
    ("repository_config_path", TypeString);
    ("repository_cache", TypeString);
    ("helm_driver", TypeString);
    ("helm_namespace", TypeString);
    ("kubernetes", TypeList) ].

Definition addressTypes : gmap string ValueType :=
  list_to_map (topLevelTypes ++ (prod_map (String.append k8sPrefix) Type_ <$> kubernetesFields)).

(** [*schema.ResourceData] as this file observes it: the values that are set
    at each address, booleans and strings apart so that every read has the
    type of its schema. *)
Record ResourceData : Type := mkResourceData {
  rd_bools : gmap string bool;
  rd_strings : gmap string string
}.

(** The value at an address and whether it exists; an address that is not set
    reads as the zero value of its type, an address outside the schema as nil. *)
Definition readField (d : ResourceData) (key : string) : value * bool :=
  match addressTypes !! key with
  | Some TypeBool =>
      match rd_bools d !! key with
      | Some b => (VBool b, true)
      | None => (VBool false, false)
      end
  | Some TypeString =>
      match rd_strings d !! key with
      | Some s => (VString s, true)
      | None => (VString "", false)
      end
  | _ => (VNil, false)
  end.

Definition isZero (v : value) : bool :=
  match v with
  | VNil => true
  | VBool b => negb b
  | VString s => String.eqb s ""
  end.

(** [d.Get]. *)
Definition Get (d : ResourceData) (key : string) : value := fst (readField d key).

(** [d.GetOk]: set, and to a value that is not the zero value. *)
Definition GetOk (d : ResourceData) (key : string) : value * bool :=
  let '(v, exists_) := readField d key in
  (v, exists_ && negb (isZero v)).

(** [d.GetOkExists]: set, whatever the value. *)
Definition GetOkExists (d : ResourceData) (key : string) : value * bool :=
  readField d key.

(** ** Lookup in the nested [kubernetes] block *)

(** [k8sGetOk]. Indexing the schema map with a key it does not hold yields a
    nil [*schema.Schema]; its field [DefaultFunc] is read only when [ok] is
    false, and reading it through nil panics. *)
Definition k8sGetOk (d : ResourceData) (env : gmap string string) (key : string)
  : outcome (value * bool) :=
  let '(value, ok) := GetOk d (k8sPrefix +:+ key) in
  let '(value, ok) :=
    match value with
    | VBool _ => GetOkExists d (k8sPrefix +:+ key)
    | _ => (value, ok)
    end in
  let schema := kubernetesResource !! key in
  if negb ok then
    match schema with
    | None => Panic NilPointerDereference
    | Some schema =>
        match DefaultFunc schema with
        | Some f =>
            let value := callDefaultFunc f env in
            let ok :=
              match value with
              | VString v => negb (Nat.eqb (String.length v) 0)
              | VBool v => v
              | VNil => ok
              end in
            Return (value, ok)
        | None => Return (value, ok)
        end
    end
  else Return (value, ok).

(** [k8sGet]. *)
Definition k8sGet (d : ResourceData) (env : gmap string string) (key : string)
  : outcome value :=
  '(value, _) ← k8sGetOk d env key; Return value.

(** ** Settings, cluster access flags and the provider meta structure *)

(** [cli.EnvSettings]: the fields [buildSettings] gives a value to. *)
Record EnvSettings : Type := mkEnvSettings {
  Debug : bool;
  PluginsDirectory : string;
  RegistryConfig : string;
  RepositoryConfig : string;
  RepositoryCache : string
}.

(** [genericclioptions.ConfigFlags]: the pointer fields [getK8sConfig]
    assigns, [None] being nil. *)
Record ConfigFlags : Type := mkConfigFlags {
  KubeConfig : option string;
  Context : option string;
  Namespace : option string;
  Username : option string;
  Password : option string;
  BearerToken : option string;
  Insecure : option bool;
  CertFile : option string;
  KeyFile : option string;
  CAFile : option string;
  ClusterName : option string
}.

(** [genericclioptions.NewConfigFlags]: the fields point to a fresh empty
    string, [Insecure] to a fresh [false]; [Username] and [Password] are
    left nil (the library sets them in [WithDeprecatedPasswordFlag] only). *)
Definition NewConfigFlags (usePersistentConfig : bool) : ConfigFlags :=
  mkConfigFlags (Some "") (Some "") (Some "") None None (Some "")
                (Some false) (Some "") (Some "") (Some "") (Some "").

Definition setKubeConfig (p : option string) (c : ConfigFlags) : ConfigFlags :=
  mkConfigFlags p (Context c) (Namespace c) (Username c) (Password c) (BearerToken c)
                (Insecure c) (CertFile c) (KeyFile c) (CAFile c) (ClusterName c).
Definition setContext (p : option string) (c : ConfigFlags) : ConfigFlags :=
  mkConfigFlags (KubeConfig c) p (Namespace c) (Username c) (Password c) (BearerToken c)
                (Insecure c) (CertFile c) (KeyFile c) (CAFile c) (ClusterName c).
Definition setNamespace (p : option string) (c : ConfigFlags) : ConfigFlags :=
  mkConfigFlags (KubeConfig c) (Context c) p (Username c) (Password c) (BearerToken c)
                (Insecure c) (CertFile c) (KeyFile c) (CAFile c) (ClusterName c).
Definition setUsername (p : option string) (c : ConfigFlags) : ConfigFlags :=
  mkConfigFlags (KubeConfig c) (Context c) (Namespace c) p (Password c) (BearerToken c)
                (Insecure c) (CertFile c) (KeyFile c) (CAFile c) (ClusterName c).
Definition setBearerToken (p : option string) (c : ConfigFlags) : ConfigFlags :=
  mkConfigFlags (KubeConfig c) (Context c) (Namespace c) (Username c) (Password c) p
                (Insecure c) (CertFile c) (KeyFile c) (CAFile c) (ClusterName c).
Definition setInsecure (p : option bool) (c : ConfigFlags) : ConfigFlags :=
  mkConfigFlags (KubeConfig c) (Context c) (Namespace c) (Username c) (Password c)
                (BearerToken c) p (CertFile c) (KeyFile c) (CAFile c) (ClusterName c).
Definition setCertFile (p : option string) (c : ConfigFlags) : ConfigFlags :=
  mkConfigFlags (KubeConfig c) (Context c) (Namespace c) (Username c) (Password c)
                (BearerToken c) (Insecure c) p (KeyFile c) (CAFile c) (ClusterName c).
Definition setKeyFile (p : option string) (c : ConfigFlags) : ConfigFlags :=
  mkConfigFlags (KubeConfig c) (Context c) (Namespace c) (Username c) (Password c)
                (BearerToken c) (Insecure c) (CertFile c) p (CAFile c) (ClusterName c).
Definition setCAFile (p : option string) (c : ConfigFlags) : ConfigFlags :=
  mkConfigFlags (KubeConfig c) (Context c) (Namespace c) (Username c) (Password c)
                (BearerToken c) (Insecure c) (CertFile c) (KeyFile c) p (ClusterName c).
Definition setClusterName (p : option string) (c : ConfigFlags) : ConfigFlags :=
  mkConfigFlags (KubeConfig c) (Context c) (Namespace c) (Username c) (Password c)
                (BearerToken c) (Insecure c) (CertFile c) (KeyFile c) (CAFile c) p.

(** [Meta]. [ConfigFlags_] is the pointer field [ConfigFlags]: the address of
    an object in the heap of the state below, or nil. The embedded
    [sync.Mutex] is its state: held or not. *)
Record Meta : Type := mkMeta {
  data : option ResourceData;
  Settings : option EnvSettings;
  ConfigFlags_ : option nat;
  HelmDriver : string;
  Mutex : bool
}.

(** [&Meta{data: d}]: every other field has its zero value. *)
Definition newMeta (d : ResourceData) : Meta := mkMeta (Some d) None None "" false.

Definition withSettings (s : EnvSettings) (m : Meta) : Meta :=
  mkMeta (data m) (Some s) (ConfigFlags_ m) (HelmDriver m) (Mutex m).
Definition withConfigFlags (c : option nat) (m : Meta) : Meta :=
  mkMeta (data m) (Settings m) c (HelmDriver m) (Mutex m).
Definition withHelmDriver (s : string) (m : Meta) : Meta :=
  mkMeta (data m) (Settings m) (ConfigFlags_ m) s (Mutex m).
Definition withMutex (b : bool) (m : Meta) : Meta :=
  mkMeta (data m) (Settings m) (ConfigFlags_ m) (HelmDriver m) b.

(** ** Effects: the trace and the heap *)

(** Observable effects, in program order: a line written by [debug], the
    provider mutex being taken and released, and a call of the Helm
    library's [action.Configuration.Init] with the object its getter
    argument points to (nil when the pointer is). *)
Inductive event : Type :=
| EvDebug (line : string)
| EvLock
| EvUnlock
| EvInit (getter : option ConfigFlags) (namespace helmDriver : string).

(** What a call can change besides its receiver: the trace of effects and
    the [ConfigFlags] objects that pointers refer to, by address. *)
Record State : Type := mkState {
  trace : list event;
  heap : list ConfigFlags
}.

(** Computations that change the state and may panic. *)
Definition M (A : Type) : Type := State -> outcome (A * State).

#[global] Instance M_ret : MRet M := fun A a st => Return (a, st).
#[global] Instance M_bind : MBind M := fun A B f x st =>
  match x st with
  | Return (a, st') => f a st'
  | Panic p => Panic p
  | Blocked => Blocked
  end.

Definition lift {A : Type} (o : outcome A) : M A := fun st =>
  match o with
  | Return a => Return (a, st)
  | Panic p => Panic p
  | Blocked => Blocked
  end.

Definition emit (e : event) : M unit := fun st =>
  Return (tt, mkState (trace st ++ [e])%list (heap st)).

(** [debug(format, a...)]; the caller passes the formatted text. *)
Definition debug (text : string) : M unit := emit (EvDebug ("[DEBUG] " +:+ text)).

(** A new object: its address is the next free one. *)
Definition alloc (c : ConfigFlags) : M nat := fun st =>
  Return (length (heap st), mkState (trace st) (heap st ++ [c])%list).

(** An assignment to a field of the object at address [a]. *)
Definition store (a : nat) (upd : ConfigFlags -> ConfigFlags) : M unit := fun st =>
  Return (tt, mkState (trace st) (alter upd a (heap st))).

(** An assignment [m.ConfigFlags.F = p]: the pointer [m.ConfigFlags] is
    dereferenced, which panics while it is nil; otherwise the object it
    points to is updated in place. *)
Definition assignThroughFlags (upd : ConfigFlags -> ConfigFlags) (m : Meta) : M unit :=
  match ConfigFlags_ m with
  | None => lift (Panic NilPointerDereference)
  | Some a => store a upd
  end.

(** ** Configuration resolution *)

Section Resolution.

(** [homedir.Expand] of go-homedir: the expanded path and an error. *)
Variable Expand : string -> string * option error.

(** The process environment the default functions read. *)
Variable env : gmap string string.

(** [(m *Meta) getK8sConfig]. The local [cf] points to the object built by
    [NewConfigFlags]; [m.ConfigFlags] is another pointer until the last
    statement. *)
Definition getK8sConfig (m : Meta) (d : ResourceData) : M (Meta * option error) :=
  cf ← alloc (NewConfigFlags true);
  inCluster ← lift (k8sGet d env "in_cluster" ≫= assertBool);
  consult ← (if negb inCluster
             then lift (k8sGet d env "load_config_file" ≫= assertBool)
             else mret false);
  err ← (if consult : bool then
           '(v, ok) ← lift (k8sGetOk d env "config_path");
           if ok : bool then
             v ← lift (assertString v);
             match Expand v with
             | (_, Some err) =>
                 _ ← debug ("Error expanding path " +:+ err);
                 mret (Some err)
             | (expanded, None) =>
                 _ ← store cf (setKubeConfig (Some expanded));
                 mret None
             end
           else mret None
         else mret None);
  match err with
  | Some err => mret (m, Some err)
  | None =>
      '(v, ok) ← lift (k8sGetOk d env "config_context");
      _ ← (if ok : bool
           then v ← lift (assertString v); store cf (setContext (Some v))
           else mret tt);
      _ ← (let '(v, ok) := GetOk d "helm_namespace" in
           if ok : bool
           then v ← lift (assertString v); store cf (setNamespace (Some v))
           else mret tt);
      '(v, ok) ← lift (k8sGetOk d env "username");
      _ ← (if ok : bool
           then v ← lift (assertString v); assignThroughFlags (setUsername (Some v)) m
           else mret tt);
      '(v, ok) ← lift (k8sGetOk d env "password");
      _ ← (if ok : bool
           then v ← lift (assertString v); assignThroughFlags (setUsername (Some v)) m
           else mret tt);
      '(v, ok) ← lift (k8sGetOk d env "token");
      _ ← (if ok : bool
           then v ← lift (assertString v); assignThroughFlags (setBearerToken (Some v)) m
           else mret tt);
      '(v, ok) ← lift (k8sGetOk d env "insecure");
      _ ← (if ok : bool
           then v ← lift (assertBool v); assignThroughFlags (setInsecure (Some v)) m
           else mret tt);
      '(v, ok) ← lift (k8sGetOk d env "client_certificate");
      _ ← (if ok : bool
           then v ← lift (assertString v); assignThroughFlags (setCertFile (Some v)) m
           else mret tt);
      '(v, ok) ← lift (k8sGetOk d env "client_key");
      _ ← (if ok : bool
           then v ← lift (assertString v); assignThroughFlags (setKeyFile (Some v)) m
           else mret tt);
      '(v, ok) ← lift (k8sGetOk d env "cluster_ca_certificate");
      _ ← (if ok : bool
           then v ← lift (assertString v); assignThroughFlags (setCAFile (Some v)) m
           else mret tt);
      '(v, ok) ← lift (k8sGetOk d env "host");
      _ ← (if ok : bool
           then v ← lift (assertString v); assignThroughFlags (setClusterName (Some v)) m
           else mret tt);
      mret (withConfigFlags (Some cf) m, None)
  end.

(** The [cli.EnvSettings] literal of [buildSettings] and the four
    conditional assignments that follow it. *)
Definition helmSettings (d : ResourceData) : outcome EnvSettings :=
  dbg ← assertBool (Get d "debug");
  let settings := mkEnvSettings dbg "" "" "" "" in
  settings ← (let '(v, ok) := GetOk d "plugins_path" in
              if ok : bool
              then v ← assertString v;
                   Return (mkEnvSettings (Debug settings) v (RegistryConfig settings)
                             (RepositoryConfig settings) (RepositoryCache settings))
              else Return settings);
  settings ← (let '(v, ok) := GetOk d "registry_config_path" in
              if ok : bool
              then v ← assertString v;
                   Return (mkEnvSettings (Debug settings) (PluginsDirectory settings) v
                             (RepositoryConfig settings) (RepositoryCache settings))
              else Return settings);
  settings ← (let '(v, ok) := GetOk d "repository_config_path" in
              if ok : bool
              then v ← assertString v;
                   Return (mkEnvSettings (Debug settings) (PluginsDirectory settings)
                             (RegistryConfig settings) v (RepositoryCache settings))
              else Return settings);
  let '(v, ok) := GetOk d "repository_cache" in
  if ok : bool
  then v ← assertString v;
       Return (mkEnvSettings (Debug settings) (PluginsDirectory settings)
                 (RegistryConfig settings) (RepositoryConfig settings) v)
  else Return settings.

(** [(m *Meta) buildSettings]. The value [getK8sConfig] returns is
    dropped, as in the source: the call is an expression statement. *)
Definition buildSettings (m : Meta) (d : ResourceData) : M (Meta * option error) :=
  settings ← lift (helmSettings d);
  m ← (let '(v, ok) := GetOk d "helm_driver" in
       if ok : bool
       then v ← lift (assertString v); mret (withHelmDriver v m)
       else mret m);
  let m := withSettings settings m in
  '(m, _) ← getK8sConfig m d;
  mret (m, None).

(** [providerConfigure]. *)
Definition providerConfigure (d : ResourceData) (terraformVersion : string)
  : M (option Meta * option error) :=
  let m := newMeta d in
  '(m, err) ← buildSettings m d;
  match err with
  | Some e => mret (None, Some e)
  | None => mret (Some m, None)
  end.

End Resolution.

(** ** A concrete [homedir.Expand]

    go-homedir's [Expand], over the result [dir] of [homedir.Dir()] and
    [filepath.Join]: a path that does not start with a tilde is returned as
    it is, a tilde followed by a user name is refused. *)
Definition homedirExpand (dir : string * option error) (Join : string -> string -> string)
    (path : string) : string * option error :=
  match path with
  | EmptyString => (path, None)
  | String c rest =>
      if negb (Ascii.eqb c "~") then (path, None)
      else
        let userSpecific :=
          match rest with
          | String c1 _ => negb (Ascii.eqb c1 "/") && negb (Ascii.eqb c1 "\")
          | EmptyString => false
          end in
        if userSpecific then ("", Some "cannot expand user-specific home dir")
        else
          match dir with
          | (_, Some err) => ("", Some err)
          | (home, None) => (Join home rest, None)
          end
  end.

(** The expansion used in the examples: home directory [/home/op], paths
    joined by concatenation (exact for the clean paths used there). *)
Definition expandOp : string -> string * option error :=
  homedirExpand ("/home/op", None) String.append.

(** ** The provider schema *)

Section ProviderSchema.

(** [strings.ToLower]. *)
Variable ToLower : string -> string.

(** [helmpath.DataPath], [helmpath.ConfigPath] and [helmpath.CachePath]. *)
Variables DataPath ConfigPath CachePath : string -> string.

(** The loop over [drivers] of the validation function: [true] when some
    driver equals [v], which is where the source returns early. *)
Fixpoint rangeDrivers (v : string) (drivers : list string) : bool :=
  match drivers with
  | [] => false
  | d :: rest => if String.eqb d v then true else rangeDrivers v rest
  end.

(** The [ValidateFunc] of [helm_driver]: warnings and errors. *)
Definition helmDriverValidateFunc (val : value) (key : string)
  : outcome (list string * list error) :=
  let drivers := ["configmap"; "secret"; "memory"] in
  v ← assertString val;
  let v := ToLower v in
  if rangeDrivers v drivers
  then Return ([], [])
  else Return ([], ([] ++ [v +:+ " must be a valid storage driver"])%list).

(** The schema map literal of [Provider()], in source order. *)
Definition providerFields : list (string * Schema) :=
  [ ("debug", envField TypeBool "HELM_DEBUG" (VBool false));
    ("plugins_path", envField TypeString "HELM_PLUGINS" (VString (DataPath "plugins")));
    ("registry_config_path",
      envField TypeString "HELM_REGISTRY_CONFIG" (VString (ConfigPath "registry.json")));
    ("repository_config_path",
      envField TypeString "HELM_REPOSITORY_CONFIG" (VString (ConfigPath "repositories.yaml")));
    ("repository_cache",
      envField TypeString "HELM_REPOSITORY_CACHE" (VString (CachePath "repository")));
    ("helm_driver",
      mkSchema TypeString true 0 (Some (EnvDefaultFunc "HELM_DRIVER" (VString "secret")))
               (Some helmDriverValidateFunc));
    ("helm_namespace", envField TypeString "HELM_NAMESPACE" (VString "default"));
    ("kubernetes", mkSchema TypeList true 1 None None) ].

(** [Provider().Schema]. *)
Definition providerSchema : gmap string Schema := list_to_map providerFields.

End ProviderSchema.

(** [p.ConfigureFunc]: an empty [TerraformVersion] stands for 0.10 or 0.11. *)
Definition ConfigureFunc (Expand : string -> string * option error)
    (env : gmap string string) (TerraformVersion : string) (d : ResourceData)
  : M (option Meta * option error) :=
  let terraformVersion :=
    if String.eqb TerraformVersion "" then "0.11+compatible" else TerraformVersion in
  providerConfigure Expand env d terraformVersion.

(** ** A body as a sequence of statements

    When several callers run at the same time, a body is not one
    computation: it is a statement, which runs on the [Meta] the callers
    share and gives a value, and the rest of the body, which depends on that
    value.  [runSteps] runs such a body alone, from its first statement to
    its return. *)
Inductive Steps (A : Type) : Type :=
| Done (a : A)
| Do {B : Type} (statement : Meta -> M (Meta * B)) (rest : B -> Steps A).
Arguments Done {A} a.
Arguments Do {A B} statement rest.

Fixpoint runSteps {A : Type} (body : Steps A) (m : Meta) : M (Meta * A) :=
  match body with
  | Done a => mret (m, a)
  | Do statement rest => '(m, b) ← statement m; runSteps (rest b) m
  end.

(** A statement that changes the [Meta], and one that reads it. *)
Definition changing (f : Meta -> M Meta) (m : Meta) : M (Meta * unit) :=
  m ← f m; mret (m, tt).
Definition reading {B : Type} (f : Meta -> M B) (m : Meta) : M (Meta * B) :=
  b ← f m; mret (m, b).

(** ** The action-configuration factory *)

Section Factory.

(** [action.Configuration] of the Helm library and its zero value. *)
Variable Configuration : Type.
Variable zeroConfiguration : Configuration.

(** [action.Configuration.Init] of the Helm library: from what happened
    so far, the receiver, the object behind the getter, the namespace and
    the driver name, how the call ends.  It returns the initialised receiver
    and an error, or it panics (the library does on a nil getter and on a
    driver name it does not know), or it does not return. *)
Variable Init :
  list event -> Configuration -> option ConfigFlags -> string -> string ->
  outcome (Configuration * option error).

(** [m.Lock()]: waits while the mutex is held. *)
Definition Lock (m : Meta) : M Meta := fun st =>
  if Mutex m then Blocked
  else Return (withMutex true m, mkState (trace st ++ [EvLock])%list (heap st)).

(** [m.Unlock()]. *)
Definition Unlock (m : Meta) : M Meta := fun st =>
  Return (withMutex false m, mkState (trace st ++ [EvUnlock])%list (heap st)).

(** The call [actionConfig.Init(m.ConfigFlags, namespace, m.HelmDriver, debug)].
    A panic of [Init] is a panic of the call. *)
Definition callInit (actionConfig : Configuration) (m : Meta) (namespace : string)
  : M (Configuration * option error) := fun st =>
  let getter := ConfigFlags_ m ≫= (fun a => heap st !! a) in
  match Init (trace st) actionConfig getter namespace (HelmDriver m) with
  | Return r =>
      Return (r, mkState (trace st ++ [EvInit getter namespace (HelmDriver m)])%list (heap st))
  | Panic p => Panic p
  | Blocked => Blocked
  end.

(** [(m *Meta) GetHelmConfiguration]. The deferred [m.Unlock()] runs when
    the function returns, on either path.  When [Init] panics the call
    panics: the deferred [m.Unlock()] runs then too, and the panic goes on
    to the caller. *)
Definition GetHelmConfiguration (m : Meta) (namespace : string)
  : M (Meta * (option Configuration * option error)) :=
  m ← Lock m;
  let actionConfig := zeroConfiguration in
  '(actionConfig, err) ← callInit actionConfig m namespace;
  match err with
  | Some err =>
      m ← Unlock m;
      mret (m, (None, Some err))
  | None =>
      m ← Unlock m;
      mret (m, (Some actionConfig, None))
  end.

(** The same body, statement by statement, for callers that share the
    receiver: [m.Lock()]; the call of [Init] on a new configuration; the
    deferred [m.Unlock()], after which the call returns. *)
Definition deferredUnlock (result : option Configuration * option error)
  : Steps (option Configuration * option error) :=
  Do (changing Unlock) (fun _ => Done result).

Definition fromInit (namespace : string) : Steps (option Configuration * option error) :=
  let actionConfig := zeroConfiguration in
  Do (reading (fun m => callInit actionConfig m namespace))
     (fun '(actionConfig, err) =>
        match err with
        | Some err => deferredUnlock (None, Some err)
        | None => deferredUnlock (Some actionConfig, None)
        end).

Definition GetHelmConfigurationSteps (namespace : string)
  : Steps (option Configuration * option error) :=
  Do (changing Lock) (fun _ => fromInit namespace).

End Factory.

(** ** How the SDK fills the attributes

    Before [ConfigureFunc] runs, the SDK reads every attribute of the
    provider schema from the configuration block: an attribute the block
    sets has that value, and one it does not set gets the value of its
    [DefaultFunc], converted to the type of the attribute.  It does the same
    for the fields of the [kubernetes] element when the block has one, and
    only then: without an element the data holds nothing at the nested
    addresses, which is why [k8sGetOk] calls the default functions itself.
    The properties of the lookups below hold for every [ResourceData]; this
    model says which data the provider receives for a block. *)

(** [strconv.ParseBool]. *)
Definition ParseBool (s : string) : option bool :=
  if existsb (String.eqb s) ["1"; "t"; "T"; "TRUE"; "true"; "True"] then Some true
  else if existsb (String.eqb s) ["0"; "f"; "F"; "FALSE"; "false"; "False"] then Some false
  else None.

(** One attribute: [None] when the default cannot be converted, which makes
    the SDK reject the configuration. *)
Definition setDefault (env : gmap string string) (k : string) (sch : Schema)
    (d : ResourceData) : option ResourceData :=
  match DefaultFunc sch with
  | None => Some d
  | Some f =>
      match Type_ sch with
      | TypeString =>
          match rd_strings d !! k with
          | Some _ => Some d
          | None =>
              match callDefaultFunc f env with
              | VString s => Some (mkResourceData (rd_bools d) (<[k := s]> (rd_strings d)))
              | _ => None
              end
          end
      | TypeBool =>
          match rd_bools d !! k with
          | Some _ => Some d
          | None =>
              match callDefaultFunc f env with
              | VBool b => Some (mkResourceData (<[k := b]> (rd_bools d)) (rd_strings d))
              | VString s =>
                  b ← ParseBool s;
                  Some (mkResourceData (<[k := b]> (rd_bools d)) (rd_strings d))
              | VNil => None
              end
          end
      | TypeList => Some d
      end
  end.

(** All attributes of a list of fields, over the data [cfg]. *)
Fixpoint attributeDefaults (env : gmap string string) (fields : list (string * Schema))
    (cfg : ResourceData) : option ResourceData :=
  match fields with
  | [] => Some cfg
  | (k, sch) :: rest => attributeDefaults env rest cfg ≫= setDefault env k sch
  end.

(** The fields of the [kubernetes] element, at their addresses. *)
Definition nestedFields : list (string * Schema) :=
  map (fun '(k, sch) => (k8sPrefix +:+ k, sch)) kubernetesFields.

(** The block has a [kubernetes] element: it sets one of its fields. *)
Definition hasKubernetes (cfg : ResourceData) : bool :=
  existsb (fun '(k, _) =>
             bool_decide (is_Some (rd_bools cfg !! k)) ||
             bool_decide (is_Some (rd_strings cfg !! k)))
          nestedFields.

(** The data the provider receives for the configuration block [cfg]: the
    attributes of the schema, and the fields of the [kubernetes] element
    when there is one. *)
Definition schemaData (env : gmap string string) (fields : list (string * Schema))
    (cfg : ResourceData) : option ResourceData :=
  d ← attributeDefaults env fields cfg;
  if hasKubernetes cfg then attributeDefaults env nestedFields d else Some d.

(** ** Vocabulary of the precedence rule *)

(** The environment variables a default function consults, in order, and its
    hard-coded default. *)
Definition envNames (f : SchemaDefaultFunc) : list string :=
  match f with
  | EnvDefaultFunc k _ => [k]
  | MultiEnvDefaultFunc ks _ => ks
  end.

Definition hardDefault (f : SchemaDefaultFunc) : value :=
  match f with
  | EnvDefaultFunc _ dv => dv
  | MultiEnvDefaultFunc _ dv => dv
  end.

(** The value of the first variable of [ks] that is present, that is, set
    to a non-empty string. *)
Fixpoint presentEnv (env : gmap string string) (ks : list string) : option string :=
  match ks with
  | [] => None
  | k :: rest =>
      match env !! k with
      | Some (String c s) => Some (String c s)
      | _ => presentEnv env rest
      end
  end.

(** The three layers: block value, environment variable, hard-coded default. *)
Definition precedence (block : option value) (fromEnv : option string) (hard : value)
  : value :=
  match block, fromEnv with
  | Some v, _ => v
  | None, Some s => VString s
  | None, None => hard
  end.

(** What the configuration block holds at an address, whatever the value. *)
Definition blockValue (d : ResourceData) (key : string) : option value :=
  match addressTypes !! key with
  | Some TypeBool => VBool <$> rd_bools d !! key
  | Some TypeString => VString <$> rd_strings d !! key
  | _ => None
  end.

(** What the accessors count as set: any boolean, and any string but the
    empty one. *)
Definition setValue (d : ResourceData) (key : string) : option value :=
  match blockValue d key with
  | Some (VString "") => None
  | o => o
  end.

(** The conversion of a default to the type of its attribute. *)
Definition convert (t : ValueType) (v : value) : option value :=
  match t, v with
  | TypeBool, VBool _ => Some v
  | TypeBool, VString s => VBool <$> ParseBool s
  | TypeString, VString _ => Some v
  | _, _ => None
  end.

(** The variables and the hard-coded default of a field; a field without a
    default function has no variable, and its zero value for default. *)
Definition schemaEnv (sch : Schema) : list string :=
  match DefaultFunc sch with
  | Some f => envNames f
  | None => []
  end.

Definition schemaHard (sch : Schema) : value :=
  match DefaultFunc sch with
  | Some f => hardDefault f
  | None => Zero (Type_ sch)
  end.

(** What [d] holds at [key], read at type [t]. *)
Definition rawValue (t : ValueType) (d : ResourceData) (key : string) : option value :=
  match t with
  | TypeBool => VBool <$> rd_bools d !! key
  | TypeString => VString <$> rd_strings d !! key
  | TypeList => None
  end.

(** ** Vocabulary of the nil dereference *)

(** The fields [getK8sConfig] assigns through [m.ConfigFlags], in source order. *)
Definition credentialFields : list string :=
  [ "username"; "password"; "token"; "insecure";
    "client_certificate"; "client_key"; "cluster_ca_certificate"; "host" ].

(** A nested field is present: set in the block or supplied by its default. *)
Definition present (d : ResourceData) (env : gmap string string) (key : string) : bool :=
  match k8sGetOk d env key with
  | Return (_, ok) => ok
  | _ => false
  end.

(** The kubeconfig part of [getK8sConfig] (its first [if]) neither panics
    nor returns an error, so that the assignments after it are reached. *)
Definition kubeconfigResolves (Expand : string -> string * option error)
    (d : ResourceData) (env : gmap string string) : bool :=
  match k8sGet d env "in_cluster" with
  | Return (VBool true) => true
  | Return (VBool false) =>
      match k8sGet d env "load_config_file" with
      | Return (VBool false) => true
      | Return (VBool true) =>
          match k8sGetOk d env "config_path" with
          | Return (_, false) => true
          | Return (VString v, true) =>
              match Expand v with
              | (_, None) => true
              | (_, Some _) => false
              end
          | _ => false
          end
      | _ => false
      end
  | _ => false
  end.

(** The kubeconfig path is consulted and its expansion fails with [err]. *)
Definition expansionFails (Expand : string -> string * option error)
    (d : ResourceData) (env : gmap string string) (err : error) : Prop :=
  k8sGet d env "in_cluster" = Return (VBool false) /\
  k8sGet d env "load_config_file" = Return (VBool true) /\
  exists v, k8sGetOk d env "config_path" = Return (VString v, true) /\
            snd (Expand v) = Some err.

(** The first present credential field is [insecure] and its value came from
    the environment, as a string. *)
Definition insecureFromEnvFirst (d : ResourceData) (env : gmap string string) : bool :=
  negb (present d env "username") && negb (present d env "password") &&
  negb (present d env "token") &&
  match k8sGetOk d env "insecure" with
  | Return (VString _, true) => true
  | _ => false
  end.

(** ** The parts of [getK8sConfig]

    The same statements, grouped: the kubeconfig [if], the two assignments
    to the local [cf], and the eight assignments through [m.ConfigFlags]. *)

Section Parts.

Variable Expand : string -> string * option error.
Variable env : gmap string string.

(** The first [if] of [getK8sConfig]: the error it returns early with. *)
Definition kubeconfigPart (cf : nat) (d : ResourceData) : M (option error) :=
  inCluster ← lift (k8sGet d env "in_cluster" ≫= assertBool);
  consult ← (if negb inCluster
             then lift (k8sGet d env "load_config_file" ≫= assertBool)
             else mret false);
  if consult : bool then
    '(v, ok) ← lift (k8sGetOk d env "config_path");
    if ok : bool then
      v ← lift (assertString v);
      match Expand v with
      | (_, Some err) =>
          _ ← debug ("Error expanding path " +:+ err);
          mret (Some err)
      | (expanded, None) =>
          _ ← store cf (setKubeConfig (Some expanded));
          mret None
      end
    else mret None
  else mret None.

(** The assignments of [config_context] and [helm_namespace] to [cf]. *)
Definition localPart (cf : nat) (d : ResourceData) : M unit :=
  '(v, ok) ← lift (k8sGetOk d env "config_context");
  _ ← (if ok : bool
       then v ← lift (assertString v); store cf (setContext (Some v))
       else mret tt);
  let '(v, ok) := GetOk d "helm_namespace" in
  if ok : bool
  then v ← lift (assertString v); store cf (setNamespace (Some v))
  else mret tt.

(** One assignment of a string field through [m.ConfigFlags]. *)
Definition credentialString (key : string)
    (upd : option string -> ConfigFlags -> ConfigFlags) (m : Meta) (d : ResourceData)
  : M unit :=
  '(v, ok) ← lift (k8sGetOk d env key);
  if ok : bool
  then v ← lift (assertString v); assignThroughFlags (upd (Some v)) m
  else mret tt.

(** The assignment of [insecure] through [m.ConfigFlags]. *)
Definition credentialBool (key : string)
    (upd : option bool -> ConfigFlags -> ConfigFlags) (m : Meta) (d : ResourceData)
  : M unit :=
  '(v, ok) ← lift (k8sGetOk d env key);
  if ok : bool
  then v ← lift (assertBool v); assignThroughFlags (upd (Some v)) m
  else mret tt.

(** The eight assignments, in source order; [password] goes to
    [Username], as in the source. *)
Definition credentialPart (m : Meta) (d : ResourceData) : M unit :=
  _ ← credentialString "username" setUsername m d;
  _ ← credentialString "password" setUsername m d;
  _ ← credentialString "token" setBearerToken m d;
  _ ← credentialBool "insecure" setInsecure m d;
  _ ← credentialString "client_certificate" setCertFile m d;
  _ ← credentialString "client_key" setKeyFile m d;
  _ ← credentialString "cluster_ca_certificate" setCAFile m d;
  credentialString "host" setClusterName m d.

(** [getK8sConfig], part by part. *)
Definition getK8sConfigParts (m : Meta) (d : ResourceData) : M (Meta * option error) :=
  cf ← alloc (NewConfigFlags true);
  err ← kubeconfigPart cf d;
  match err with
  | Some err => mret (m, Some err)
  | None =>
      _ ← localPart cf d;
      _ ← credentialPart m d;
      mret (withConfigFlags (Some cf) m, None)
  end.

End Parts.

(** The fields of a [ConfigFlags] that [getK8sConfig] assigns through
    [m.ConfigFlags], and [Password], which the schema has a field for. *)
Definition credentialsOf (c : ConfigFlags) :=
  (Username c, Password c, BearerToken c, Insecure c,
   CertFile c, KeyFile c, CAFile c, ClusterName c).

(** Every object of the heap [h'] is an object of [h] with the same
    credential fields. *)
Definition keepsCredentials (h h' : list ConfigFlags) : Prop :=
  forall a c', h' !! a = Some c' ->
    exists c, h !! a = Some c /\ credentialsOf c = credentialsOf c'.

(** ** Concurrent callers

    Several resource operations call a method of one [Meta] at the same
    time.  The [Meta] and the state are shared; each caller has the rest of
    its body.  In one move the scheduler picks a caller and runs its next
    statement on the shared [Meta] and state.  A caller whose statement
    waits (as [m.Lock()] does while the mutex is held) makes no move, and
    neither does one whose statement panics: the panic ends the process.
    The history records who made each move, by the events the statement
    added to the trace. *)
Record World (A : Type) : Type := mkWorld {
  shared : Meta;
  state : State;
  callers : list (Steps A);
  history : list (nat * event)
}.
Arguments mkWorld {A} shared state callers history.
Arguments shared {A} w.
Arguments state {A} w.
Arguments callers {A} w.
Arguments history {A} w.

(** The next statement of a body, run: [None] when the body has returned. *)
Definition next {A : Type} (body : Steps A) (m : Meta) (st : State)
  : option (outcome (Steps A * Meta * State)) :=
  match body with
  | Done _ => None
  | Do statement rest =>
      Some (match statement m st with
            | Return ((m', b), st') => Return (rest b, m', st')
            | Panic p => Panic p
            | Blocked => Blocked
            end)
  end.

(** The events a statement added to the trace. *)
Definition added (st st' : State) : list event :=
  drop (length (trace st)) (trace st').

(** The move of caller [i], when it can make one. *)
Definition move {A : Type} (i : nat) (w : World A) : option (World A) :=
  match callers w !! i with
  | None => None
  | Some body =>
      match next body (shared w) (state w) with
      | Some (Return (body', m', st')) =>
          Some (mkWorld m' st' (<[i := body']> (callers w))
                        (history w ++ map (pair i) (added (state w) st'))%list)
      | _ => None
      end
  end.

Definition step {A : Type} (w w' : World A) : Prop := exists i, move i w = Some w'.

Inductive reachable {A : Type} (w0 : World A) : World A -> Prop :=
| reachable_initial : reachable w0 w0
| reachable_step (w w' : World A) : reachable w0 w -> step w w' -> reachable w0 w'.

(** The callers move in the order of the schedule. *)
Definition run {A : Type} (schedule : list nat) (w : World A) : option (World A) :=
  fold_left (fun ow i => ow ≫= move i) schedule (Some w).

(** One caller of [GetHelmConfiguration] per namespace of the list, on the
    [Meta] [m], none of which has moved. *)
Definition initial (Configuration : Type) (zero : Configuration)
    (Init : list event -> Configuration -> option ConfigFlags -> string -> string ->
            outcome (Configuration * option error))
    (m : Meta) (st : State) (namespaces : list string)
  : World (option Configuration * option error) :=
  mkWorld m st (map (GetHelmConfigurationSteps Configuration zero Init) namespaces) [].

(** Caller [i] is inside its critical section: it has taken the mutex and
    not released it. *)
Definition inside (i : nat) (h : list (nat * event)) : Prop :=
  (i, EvLock) ∈ h /\ (i, EvUnlock) ∉ h.

(** Reading a history as a sequence of critical sections: who holds the
    mutex after it, or [None] when some move was made by a caller that did
    not hold the mutex, or took it while it was held. *)
Definition holderStep (h : option (option nat)) (e : nat * event) : option (option nat) :=
  match h, e with
  | Some None, (i, EvLock) => Some (Some i)
  | Some (Some k), (i, EvInit _ _ _) => if Nat.eqb i k then Some (Some k) else None
  | Some (Some k), (i, EvUnlock) => if Nat.eqb i k then Some None else None
  | _, _ => None
  end.

Definition holderAfter (t : list (nat * event)) : option (option nat) :=
  fold_left holderStep t (Some None).

(** Where the callers of [GetHelmConfiguration] are, by what is left of
    their bodies: a caller that does not hold the mutex has not moved or has
    returned; the one that holds it is about to call [Init] or about to
    release the mutex. *)
Section Positions.

Variable Configuration : Type.
Variable zeroConfiguration : Configuration.
Variable Init :
  list event -> Configuration -> option ConfigFlags -> string -> string ->
  outcome (Configuration * option error).

Definition outside (i : nat) (body : Steps (option Configuration * option error))
    (h : list (nat * event)) : Prop :=
  (exists namespace,
     body = GetHelmConfigurationSteps Configuration zeroConfiguration Init namespace /\
     forall e, (i, e) ∉ h) \/
  (exists result, body = Done result /\ (i, EvLock) ∈ h /\ (i, EvUnlock) ∈ h).

Definition holding (body : Steps (option Configuration * option error)) : Prop :=
  (exists namespace, body = fromInit Configuration zeroConfiguration Init namespace) \/
  (exists result, body = deferredUnlock Configuration result).

(** The invariant of the concurrent system started on [m] and [st]: only
    the mutex of the shared [Meta] and the trace change, the trace by the
    events of the history; the history reads as a sequence of critical
    sections, every call of [Init] was made inside the critical section of
    its caller, and the caller the history leaves holding the mutex, if
    any, is the only one inside its body. *)
Definition consistent (m : Meta) (st : State)
    (w : World (option Configuration * option error)) : Prop :=
  shared w = withMutex (Mutex (shared w)) m /\
  heap (state w) = heap st /\
  trace (state w) = (trace st ++ map snd (history w))%list /\
  (forall i, callers w !! i = None -> forall e, (i, e) ∉ history w) /\
  (forall t1 t2 i getter namespace helmDriver,
     history w = (t1 ++ (i, EvInit getter namespace helmDriver) :: t2)%list ->
     inside i t1) /\
  match holderAfter (history w) with
  | None => False
  | Some None =>
      Mutex (shared w) = false /\
      forall i body, callers w !! i = Some body -> outside i body (history w)
  | Some (Some k) =>
      Mutex (shared w) = true /\ inside k (history w) /\
      (exists body, callers w !! k = Some body /\ holding body) /\
      forall i body, i <> k -> callers w !! i = Some body -> outside i body (history w)
  end.

End Positions.

(** ** Example configurations *)

(** ASCII lower-casing, which is what [strings.ToLower] does to a string of
    ASCII characters. *)
Fixpoint asciiToLower (s : string) : string :=
  match s with
  | EmptyString => EmptyString
  | String c rest =>
      let n := nat_of_ascii c in
      String (if (65 <=? n)%nat && (n <=? 90)%nat then ascii_of_nat (n + 32) else c)
             (asciiToLower rest)
  end.

(** The Helm paths of a Linux account whose home directory is [/home/op]. *)
Definition opDataPath (s : string) : string := "/home/op/.local/share/helm/" +:+ s.
Definition opConfigPath (s : string) : string := "/home/op/.config/helm/" +:+ s.
Definition opCachePath (s : string) : string := "/home/op/.cache/helm/" +:+ s.

Definition opFields : list (string * Schema) :=
  providerFields asciiToLower opDataPath opConfigPath opCachePath.

(** No state yet: an empty trace and an empty heap. *)
Definition st0 : State := mkState [] [].

(** An empty configuration block. *)
Definition blockEmpty : ResourceData := mkResourceData ∅ ∅.

(** [kubernetes { username = "alice"  password = "s3cret" }]. *)
Definition blockUserPassword : ResourceData :=
  mkResourceData ∅
    (<["kubernetes.0.username" := "alice"]>
       (<["kubernetes.0.password" := "s3cret"]> ∅)).

(** [kubernetes { username = "alice"  config_path = "~bob/cfg" }]: a path
    that go-homedir refuses to expand. *)
Definition blockBadPath : ResourceData :=
  mkResourceData ∅
    (<["kubernetes.0.username" := "alice"]>
       (<["kubernetes.0.config_path" := "~bob/cfg"]> ∅)).

(** [kubernetes { insecure = false }]. *)
Definition blockInsecureFalse : ResourceData :=
  mkResourceData (<["kubernetes.0.insecure" := false]> ∅) ∅.

(** [kubernetes { host = "" }]. *)
Definition blockEmptyHost : ResourceData :=
  mkResourceData ∅ (<["kubernetes.0.host" := ""]> ∅).

(** [helm_driver = "secret"  helm_namespace = "ops"
     kubernetes { insecure = true }]. *)
Definition blockScenario : ResourceData :=
  mkResourceData (<["kubernetes.0.insecure" := true]> ∅)
    (<["helm_driver" := "secret"]> (<["helm_namespace" := "ops"]> ∅)).

(** A [Meta] as [providerConfigure] leaves it when nothing in the nested
    block is set: its [ConfigFlags] is the object at address 0. *)
Definition metaReady : Meta := mkMeta (Some blockEmpty) None (Some 0) "secret" false.
Definition stReady : State := mkState [] [NewConfigFlags true].

(** An [Init] over configurations that are the name of their driver.  It
    panics where the library does: on a nil getter, which it dereferences,
    and on a driver name that is none of those it knows. *)
Definition initByDriver (tr : list event) (c : string) (getter : option ConfigFlags)
    (namespace helmDriver : string) : outcome (string * option error) :=
  match getter with
  | None => Panic NilPointerDereference
  | Some _ =>
      if existsb (String.eqb helmDriver)
           ["secret"; "secrets"; ""; "configmap"; "configmaps"; "memory"]
      then Return (helmDriver, None)
      else Panic (Raised ("Unknown driver in HELM_DRIVER: " +:+ helmDriver))
  end.

(** Three callers of [GetHelmConfiguration] on that [Meta]; the world in
    which the first has taken the mutex; and the world in which the first
    has returned and the second has taken the mutex. *)
Definition worldStart : World (option string * option error) :=
  initial string "" initByDriver metaReady stReady ["ops"; "dev"; "qa"].
Definition worldBusy : World (option string * option error) :=
  default worldStart (run [0] worldStart).
Definition worldSecond : World (option string * option error) :=
  default worldStart (run [0; 0; 0; 1] worldStart).

(** ** Vocabulary of the further properties *)

(** The condition of the first [if] of [getK8sConfig]: [in_cluster] reads
    as [false] and [load_config_file] as [true]. *)
Definition consultsKubeconfig (d : ResourceData) (env : gmap string string) : bool :=
  match k8sGet d env "in_cluster", k8sGet d env "load_config_file" with
  | Return (VBool false), Return (VBool true) => true
  | _, _ => false
  end.

(** [kubernetes { in_cluster = true  config_path = "~bob/cfg" }]. *)
Definition blockInCluster : ResourceData :=
  mkResourceData (<["kubernetes.0.in_cluster" := true]> ∅)
    (<["kubernetes.0.config_path" := "~bob/cfg"]> ∅).

(** [helm_driver = "configmap"  helm_namespace = "ops"
     kubernetes { config_context = "staging" }]. *)
Definition blockContext : ResourceData :=
  mkResourceData ∅
    (<["helm_driver" := "configmap"]>
       (<["helm_namespace" := "ops"]>
          (<["kubernetes.0.config_context" := "staging"]> ∅))).

(** * Properties *)

(** The lookups are kept folded during simplification; the lemmas below
    unfold them where needed. *)
#[local] Arguments k8sGetOk : simpl never.
#[local] Arguments k8sGet : simpl never.
#[local] Arguments GetOk : simpl never.
#[local] Arguments Get : simpl never.
#[local] Arguments readField : simpl never.
#[local] Arguments present : simpl never.

(** ** The schema tables *)

Lemma kubernetesResource_elem key sch :
  kubernetesResource !! key = Some sch -> (key, sch) ∈ kubernetesFields.
Proof. apply elem_of_list_to_map_2. Qed.

Ltac each_field H :=
  unfold kubernetesFields in H;
  repeat (apply elem_of_cons in H as [H | H]; [simplify_eq |]);
  [.. | apply elem_of_nil in H; contradiction].

Lemma addressTypes_nested key sch :
  kubernetesResource !! key = Some sch ->
  addressTypes !! (k8sPrefix +:+ key) = Some (Type_ sch).
Proof.
  intros H. apply kubernetesResource_elem in H.
  each_field H; vm_compute; reflexivity.
Qed.

Lemma isZero_length s : negb (Nat.eqb (String.length s) 0) = negb (String.eqb s "").
Proof. destruct s; reflexivity. Qed.

(** [k8sGetOk] in one equation: the value the block sets, else the default
    function's, else the zero value. *)
Lemma k8sGetOk_field d env key sch :
  kubernetesResource !! key = Some sch ->
  k8sGetOk d env key =
  Return (match setValue d (k8sPrefix +:+ key) with
          | Some v => (v, true)
          | None =>
              match DefaultFunc sch with
              | Some f => let v := callDefaultFunc f env in (v, negb (isZero v))
              | None => (Zero (Type_ sch), false)
              end
          end).
Proof.
  intros H. pose proof (addressTypes_nested _ _ H) as Ht.
  unfold k8sGetOk, GetOk, GetOkExists, setValue, blockValue, readField.
  rewrite Ht, H.
  destruct (Type_ sch); simpl.
  - destruct (rd_bools d !! (k8sPrefix +:+ key)) as [b|]; simpl.
    + reflexivity.
    + destruct (DefaultFunc sch) as [f|]; [|reflexivity].
      destruct (callDefaultFunc f env) as [|b|s]; simpl; try reflexivity.
      * now rewrite negb_involutive.
      * now rewrite isZero_length.
  - destruct (rd_strings d !! (k8sPrefix +:+ key)) as [s|]; simpl.
    + destruct s as [|c s]; simpl; [|reflexivity].
      destruct (DefaultFunc sch) as [f|]; [|reflexivity].
      destruct (callDefaultFunc f env) as [|b|s]; simpl; try reflexivity.
      * now rewrite negb_involutive.
      * now rewrite isZero_length.
    + destruct (DefaultFunc sch) as [f|]; [|reflexivity].
      destruct (callDefaultFunc f env) as [|b|s]; simpl; try reflexivity.
      * now rewrite negb_involutive.
      * now rewrite isZero_length.
  - destruct (DefaultFunc sch) as [f|]; [|reflexivity].
    destruct (callDefaultFunc f env) as [|b|s]; simpl; try reflexivity.
    * now rewrite negb_involutive.
    * now rewrite isZero_length.
Qed.

(** ** The monad *)

Lemma bind_ext {A B} (x : M A) (f g : A -> M B) st :
  (forall a st', f a st' = g a st') -> (x ≫= f) st = (x ≫= g) st.
Proof.
  intros H. unfold mbind, M_bind. destruct (x st) as [[a st']|p|]; auto.
Qed.

Lemma bind_assoc {A B C} (x : M A) (f : A -> M B) (g : B -> M C) st :
  ((x ≫= f) ≫= g) st = (x ≫= (fun a => f a ≫= g)) st.
Proof.
  unfold mbind, M_bind. destruct (x st) as [[a st']|p|]; auto.
Qed.

Lemma getK8sConfig_parts Expand env m d st :
  getK8sConfig Expand env m d st = getK8sConfigParts Expand env m d st.
Proof.
  unfold getK8sConfig, getK8sConfigParts.
  apply bind_ext; intros cf st1.
  unfold kubeconfigPart.
  rewrite !bind_assoc. apply bind_ext; intros inCluster st2.
  rewrite !bind_assoc. apply bind_ext; intros consult st3.
  apply bind_ext; intros [err|] st4; [reflexivity|].
  unfold localPart, credentialPart, credentialString, credentialBool.
  repeat first
    [ reflexivity
    | rewrite bind_assoc
    | apply bind_ext; intros ? ?
    | match goal with
      | |- context [match ?x with _ => _ end] => is_var x; destruct x
      | |- context [GetOk ?a ?b] => destruct (GetOk a b)
      end ].
Qed.

(** ** Typed reads *)

Lemma readField_string d key :
  addressTypes !! key = Some TypeString ->
  readField d key =
  match rd_strings d !! key with
  | Some s => (VString s, true)
  | None => (VString "", false)
  end.
Proof. intros H. unfold readField. now rewrite H. Qed.

Lemma readField_bool d key :
  addressTypes !! key = Some TypeBool ->
  readField d key =
  match rd_bools d !! key with
  | Some b => (VBool b, true)
  | None => (VBool false, false)
  end.
Proof. intros H. unfold readField. now rewrite H. Qed.

Lemma GetOk_string d key :
  addressTypes !! key = Some TypeString ->
  exists s ok, GetOk d key = (VString s, ok) /\ (ok = false -> Get d key = VString "").
Proof.
  intros H. unfold GetOk, Get. rewrite (readField_string _ _ H).
  destruct (rd_strings d !! key) as [s|]; simpl.
  - exists s, (negb (s =? "")). split; [reflexivity|].
    intros E. apply negb_false_iff, String.eqb_eq in E. now subst.
  - exists "", false. auto.
Qed.

Lemma blockValue_raw d key :
  blockValue d key =
  match addressTypes !! key with
  | Some t => rawValue t d key
  | None => None
  end.
Proof. unfold blockValue, rawValue. destruct (addressTypes !! key) as [[| |]|]; reflexivity. Qed.

Lemma Get_raw d key t v :
  addressTypes !! key = Some t -> rawValue t d key = Some v -> Get d key = v.
Proof.
  intros H. unfold Get, readField, rawValue. rewrite H. clear H.
  destruct t; simpl.
  - destruct (rd_bools d !! key); simpl; intros E; now inversion E.
  - destruct (rd_strings d !! key); simpl; intros E; now inversion E.
  - discriminate.
Qed.

Lemma rawValue_convert t d key v : rawValue t d key = Some v -> convert t v = Some v.
Proof.
  unfold rawValue. destruct t; simpl.
  - destruct (rd_bools d !! key); simpl; intros E; inversion E; reflexivity.
  - destruct (rd_strings d !! key); simpl; intros E; inversion E; reflexivity.
  - discriminate.
Qed.

(** The default of every string field of the nested block is a string. *)
Lemma nested_default_string key sch f env :
  kubernetesResource !! key = Some sch -> Type_ sch = TypeString ->
  DefaultFunc sch = Some f -> exists s, callDefaultFunc f env = VString s.
Proof.
  intros H Ht Hf. apply kubernetesResource_elem in H.
  each_field H; simpl in *; try discriminate; simplify_eq; simpl;
    repeat match goal with
           | |- context [if ?b then _ else _] => destruct b
           end; eauto.
Qed.

Lemma setValue_string d key v :
  addressTypes !! key = Some TypeString -> setValue d key = Some v ->
  exists s, v = VString s.
Proof.
  intros H. unfold setValue, blockValue. rewrite H. clear H.
  destruct (rd_strings d !! key) as [[|c s]|]; simpl; intros E;
    try discriminate E; injection E as <-; eauto.
Qed.

Lemma setValue_bool d key v :
  addressTypes !! key = Some TypeBool -> setValue d key = Some v ->
  exists b, v = VBool b.
Proof.
  intros H. unfold setValue, blockValue. rewrite H. clear H.
  destruct (rd_bools d !! key) as [b|]; simpl; intros E;
    try discriminate E; injection E as <-; eauto.
Qed.

(** A string field of the nested block always reads as a string. *)
Lemma k8sGetOk_string d env key sch :
  kubernetesResource !! key = Some sch -> Type_ sch = TypeString ->
  exists s ok, k8sGetOk d env key = Return (VString s, ok).
Proof.
  intros H Ht. rewrite (k8sGetOk_field _ _ _ _ H).
  pose proof (addressTypes_nested _ _ H) as Ha. rewrite Ht in Ha.
  destruct (setValue d (k8sPrefix +:+ key)) as [v|] eqn:E.
  - destruct (setValue_string _ _ _ Ha E) as [s ->]. eauto.
  - destruct (DefaultFunc sch) as [f|] eqn:Ef.
    + destruct (nested_default_string _ _ _ env H Ht Ef) as [s ->]. simpl. eauto.
    + rewrite Ht. simpl. eauto.
Qed.

Lemma k8sGet_unfold d env key :
  k8sGet d env key = '(value, _) ← k8sGetOk d env key; Return value.
Proof. reflexivity. Qed.

(** [in_cluster] always reads as a boolean: it has no default function. *)
Lemma k8sGet_in_cluster d env :
  exists b, k8sGet d env "in_cluster" = Return (VBool b).
Proof.
  rewrite k8sGet_unfold.
  rewrite (k8sGetOk_field d env "in_cluster" (mkSchema TypeBool true 0 None None))
    by (vm_compute; reflexivity).
  destruct (setValue d (k8sPrefix +:+ "in_cluster")) as [v|] eqn:E; simpl.
  - apply setValue_bool in E as [b ->]; [eauto | vm_compute; reflexivity].
  - eauto.
Qed.

(** ** [helmSettings] *)

(** [helmSettings] never panics, and each field of the settings is what
    [d.Get] reads at the attribute. *)
Lemma helmSettings_Get d :
  exists s, helmSettings d = Return s /\
    Get d "debug" = VBool (Debug s) /\
    Get d "plugins_path" = VString (PluginsDirectory s) /\
    Get d "registry_config_path" = VString (RegistryConfig s) /\
    Get d "repository_config_path" = VString (RepositoryConfig s) /\
    Get d "repository_cache" = VString (RepositoryCache s).
Proof.
  unfold helmSettings, Get, GetOk.
  rewrite (readField_bool d "debug") by (vm_compute; reflexivity).
  rewrite (readField_string d "plugins_path") by (vm_compute; reflexivity).
  rewrite (readField_string d "registry_config_path") by (vm_compute; reflexivity).
  rewrite (readField_string d "repository_config_path") by (vm_compute; reflexivity).
  rewrite (readField_string d "repository_cache") by (vm_compute; reflexivity).
  destruct (rd_bools d !! "debug") as [b|];
    destruct (rd_strings d !! "plugins_path") as [[|c1 s1]|];
    destruct (rd_strings d !! "registry_config_path") as [[|c2 s2]|];
    destruct (rd_strings d !! "repository_config_path") as [[|c3 s3]|];
    destruct (rd_strings d !! "repository_cache") as [[|c4 s4]|];
    simpl; eexists; (split; [reflexivity|]); simpl; auto.
Qed.

(** ** The parts of [getK8sConfig] on a nil [m.ConfigFlags] *)

(** From here on the lookups are used through the lemmas above only. *)
#[local] Opaque k8sGetOk k8sGet GetOk Get kubernetesResource addressTypes.

Lemma k8sGetOk_returns d env key sch :
  kubernetesResource !! key = Some sch ->
  exists v ok, k8sGetOk d env key = Return (v, ok).
Proof.
  intros H. rewrite (k8sGetOk_field _ _ _ _ H).
  destruct (setValue d (k8sPrefix +:+ key)); [eauto|].
  destruct (DefaultFunc sch); simpl; eauto.
Qed.

(** A string field that is present makes its assignment dereference nil;
    one that is absent leaves the state as it is. *)
Lemma credentialString_nil env key sch upd m d st :
  ConfigFlags_ m = None ->
  kubernetesResource !! key = Some sch -> Type_ sch = TypeString ->
  credentialString env key upd m d st =
  if present d env key then Panic NilPointerDereference else Return (tt, st).
Proof.
  intros Hm H Ht.
  destruct (k8sGetOk_string d env _ _ H Ht) as (s & ok & E).
  unfold credentialString, present, assignThroughFlags, mbind, M_bind, lift.
  rewrite E, Hm. destruct ok; reflexivity.
Qed.

(** [insecure] reads as a boolean or, from the environment, as a string. *)
Lemma k8sGetOk_insecure d env :
  exists v ok, k8sGetOk d env "insecure" = Return (v, ok) /\ v <> VNil.
Proof.
  rewrite (k8sGetOk_field d env "insecure" (envField TypeBool "KUBE_INSECURE" (VBool false)))
    by (vm_compute; reflexivity).
  destruct (setValue d (k8sPrefix +:+ "insecure")) as [v|] eqn:E.
  - apply setValue_bool in E as [b ->]; [|vm_compute; reflexivity].
    eexists _, _. split; [reflexivity | discriminate].
  - simpl. destruct (negb (Getenv env "KUBE_INSECURE" =? ""));
      eexists _, _; (split; [reflexivity | discriminate]).
Qed.

(** The same for [insecure], whose value is a string when it comes from the
    environment: the type assertion fails before the dereference. *)
Lemma credentialBool_nil env upd m d st :
  ConfigFlags_ m = None ->
  credentialBool env "insecure" upd m d st =
  match k8sGetOk d env "insecure" with
  | Return (VBool _, true) => Panic NilPointerDereference
  | Return (_, true) => Panic InterfaceConversion
  | _ => Return (tt, st)
  end.
Proof.
  intros Hm.
  destruct (k8sGetOk_returns d env "insecure" (envField TypeBool "KUBE_INSECURE" (VBool false)))
    as (v & ok & E); [vm_compute; reflexivity|].
  unfold credentialBool, assignThroughFlags, mbind, M_bind, lift.
  rewrite E, Hm. destruct ok, v; reflexivity.
Qed.

Lemma credentialPart_nil env m d st :
  ConfigFlags_ m = None ->
  credentialPart env m d st =
  if existsb (present d env) credentialFields
  then Panic (if insecureFromEnvFirst d env
              then InterfaceConversion else NilPointerDereference)
  else Return (tt, st).
Proof.
  intros Hm.
  destruct (k8sGetOk_insecure d env) as (v & ok & E & Hv).
  unfold credentialPart, insecureFromEnvFirst, credentialFields, existsb, mbind, M_bind.
  rewrite (credentialString_nil env "username" (envField TypeString "KUBE_USER" (VString "")))
    by (assumption || (vm_compute; reflexivity)).
  destruct (present d env "username"); [reflexivity|].
  rewrite (credentialString_nil env "password" (envField TypeString "KUBE_PASSWORD" (VString "")))
    by (assumption || (vm_compute; reflexivity)).
  destruct (present d env "password"); [reflexivity|].
  rewrite (credentialString_nil env "token" (envField TypeString "KUBE_BEARER_TOKEN" (VString "")))
    by (assumption || (vm_compute; reflexivity)).
  destruct (present d env "token"); [reflexivity|].
  rewrite (credentialBool_nil env) by assumption.
  unfold present at 1. rewrite E.
  destruct ok; [destruct v; reflexivity || contradiction|].
  replace (match v with VBool _ | _ => Return ((), st) end) with (Return (tt, st))
    by (destruct v; reflexivity).
  rewrite (credentialString_nil env "client_certificate"
             (envField TypeString "KUBE_CLIENT_CERT_DATA" (VString "")))
    by (assumption || (vm_compute; reflexivity)).
  destruct (present d env "client_certificate"); [destruct v; reflexivity|].
  rewrite (credentialString_nil env "client_key"
             (envField TypeString "KUBE_CLIENT_KEY_DATA" (VString "")))
    by (assumption || (vm_compute; reflexivity)).
  destruct (present d env "client_key"); [destruct v; reflexivity|].
  rewrite (credentialString_nil env "cluster_ca_certificate"
             (envField TypeString "KUBE_CLUSTER_CA_CERT_DATA" (VString "")))
    by (assumption || (vm_compute; reflexivity)).
  destruct (present d env "cluster_ca_certificate"); [destruct v; reflexivity|].
  rewrite (credentialString_nil env "host" (envField TypeString "KUBE_HOST" (VString "")))
    by (assumption || (vm_compute; reflexivity)).
  destruct (present d env "host"); [destruct v; reflexivity|].
  reflexivity.
Qed.

(** The kubeconfig part, when it resolves: no error, and nothing but the
    local [cf] is touched. *)
Lemma kubeconfigPart_resolves Expand env cf d st :
  kubeconfigResolves Expand d env = true ->
  exists st', kubeconfigPart Expand env cf d st = Return (None, st') /\
              trace st' = trace st /\ length (heap st') = length (heap st).
Proof.
  unfold kubeconfigResolves, kubeconfigPart, mbind, M_bind, lift, outcome_bind, mret, M_ret.
  generalize (k8sGet d env "in_cluster") (k8sGet d env "load_config_file")
             (k8sGetOk d env "config_path").
  intros o1 o2 o3.
  destruct o1 as [[|[|]|s]|p|]; simpl; try discriminate.
  - intros _. eauto.
  - destruct o2 as [[|[|]|s]|p|]; simpl; try discriminate.
    + destruct o3 as [[v [|]]|p|]; simpl; try discriminate.
      * destruct v as [| |v]; try discriminate. simpl.
        destruct (Expand v) as [expanded [err|]]; try discriminate.
        intros _. unfold store. simpl. eexists. split; [reflexivity|].
        simpl. split; [reflexivity|]. apply length_alter.
      * intros _. eauto.
    + intros _. eauto.
Qed.

(** The kubeconfig part, when the expansion fails: the debug line, then the
    error. *)
Lemma kubeconfigPart_fails Expand env cf d st err :
  expansionFails Expand d env err ->
  kubeconfigPart Expand env cf d st =
  Return (Some err,
          mkState (trace st ++ [EvDebug ("[DEBUG] Error expanding path " +:+ err)])%list
                  (heap st)).
Proof.
  intros (Hic & Hl & v & Hv & He).
  unfold kubeconfigPart, mbind, M_bind, lift, outcome_bind, mret, M_ret.
  rewrite Hic, Hl. simpl. rewrite Hv. simpl.
  destruct (Expand v) as [expanded o]. simpl in He. subst o. reflexivity.
Qed.

(** ** Credential fields across the heap *)

Lemma keepsCredentials_refl h : keepsCredentials h h.
Proof. intros a c H. eauto. Qed.

Lemma keepsCredentials_trans h1 h2 h3 :
  keepsCredentials h1 h2 -> keepsCredentials h2 h3 -> keepsCredentials h1 h3.
Proof.
  intros H12 H23 a c3 H3.
  destruct (H23 _ _ H3) as (c2 & H2 & E2).
  destruct (H12 _ _ H2) as (c1 & H1 & E1).
  exists c1. split; [assumption | congruence].
Qed.

Lemma keepsCredentials_alter f a h :
  (forall c, credentialsOf (f c) = credentialsOf c) ->
  keepsCredentials h (alter f a h).
Proof.
  intros Hf b c' H. destruct (decide (a = b)) as [->|Hne].
  - rewrite list_lookup_alter_eq in H.
    destruct (h !! b) as [c|]; simpl in H; [|discriminate].
    injection H as <-. exists c. split; [reflexivity | now rewrite Hf].
  - rewrite list_lookup_alter_ne in H by assumption. eauto.
Qed.

(** The kubeconfig part, whatever it returns, touches no credential field. *)
Lemma kubeconfigPart_keeps Expand env cf d st e st' :
  kubeconfigPart Expand env cf d st = Return (e, st') ->
  length (heap st') = length (heap st) /\ keepsCredentials (heap st) (heap st').
Proof.
  unfold kubeconfigPart, mbind, M_bind, lift, outcome_bind, mret, M_ret.
  generalize (k8sGet d env "in_cluster") (k8sGet d env "load_config_file")
             (k8sGetOk d env "config_path").
  intros o1 o2 o3.
  assert (Hsame : forall x : option error,
            Return (x, st) = Return (e, st') ->
            length (heap st') = length (heap st) /\ keepsCredentials (heap st) (heap st')).
  { intros x [= _ <-]. split; [reflexivity | apply keepsCredentials_refl]. }
  destruct o1 as [[|[|]|s]|p|]; simpl; try discriminate; [now apply Hsame|].
  destruct o2 as [[|[|]|s]|p|]; simpl; try discriminate; [|now apply Hsame].
  destruct o3 as [[v [|]]|p|]; simpl; try discriminate; [|now apply Hsame].
  destruct v as [| |v]; simpl; try discriminate.
  destruct (Expand v) as [expanded [err|]]; unfold debug, emit, store; simpl.
  - intros [= _ <-]. simpl. split; [reflexivity | apply keepsCredentials_refl].
  - intros [= _ <-]. simpl. split; [apply length_alter|].
    now apply keepsCredentials_alter.
Qed.

(** The assignments to the local [cf] never panic, and touch no credential
    field either. *)
Lemma localPart_keeps env cf d st :
  exists st', localPart env cf d st = Return (tt, st') /\
              trace st' = trace st /\
              length (heap st') = length (heap st) /\
              keepsCredentials (heap st) (heap st').
Proof.
  destruct (k8sGetOk_string d env "config_context" (envField TypeString "KUBE_CTX" (VString "")))
    as (s & ok & E); [vm_compute; reflexivity | reflexivity |].
  destruct (GetOk_string d "helm_namespace") as (n & okn & En & _); [vm_compute; reflexivity|].
  unfold localPart, mbind, M_bind, lift, mret, M_ret, store.
  rewrite E, En.
  destruct ok, okn; simpl; eexists; (split; [reflexivity|]); simpl;
    rewrite ?length_alter; (split; [reflexivity|]); (split; [reflexivity|]);
    first [ apply keepsCredentials_refl
          | apply keepsCredentials_alter; reflexivity
          | eapply keepsCredentials_trans; apply keepsCredentials_alter; reflexivity ].
Qed.

(** ** [providerConfigure] *)

(** [providerConfigure] is [getK8sConfig] on a [Meta] whose [ConfigFlags] is
    nil, with the error it returns dropped. *)
Lemma providerConfigure_getK8sConfig Expand env d tv :
  exists m0, ConfigFlags_ m0 = None /\
    forall st,
      providerConfigure Expand env d tv st =
      match getK8sConfigParts Expand env m0 d st with
      | Return ((m, _), st') => Return ((Some m, None), st')
      | Panic p => Panic p
      | Blocked => Blocked
      end.
Proof.
  destruct (helmSettings_Get d) as (s & Hs & _).
  destruct (GetOk_string d "helm_driver") as (h & okh & Eh & _); [vm_compute; reflexivity|].
  exists (withSettings s (if okh then withHelmDriver h (newMeta d) else newMeta d)).
  split; [destruct okh; reflexivity|].
  intros st. unfold providerConfigure, buildSettings, mbind, M_bind, lift, mret, M_ret.
  rewrite Hs, Eh.
  destruct okh; simpl; rewrite getK8sConfig_parts;
    destruct (getK8sConfigParts _ _ _ _ _) as [[[m e] st']|p|]; reflexivity.
Qed.

(** When the kubeconfig part resolves and a credential field is present,
    the first assignment through [m.ConfigFlags] panics. *)
Lemma providerConfigure_nil_panic Expand env d tv st :
  kubeconfigResolves Expand d env = true ->
  existsb (present d env) credentialFields = true ->
  providerConfigure Expand env d tv st =
  Panic (if insecureFromEnvFirst d env then InterfaceConversion else NilPointerDereference).
Proof.
  intros Hk Hp.
  destruct (providerConfigure_getK8sConfig Expand env d tv) as (m0 & Hm0 & ->).
  unfold getK8sConfigParts, alloc, mbind, M_bind.
  destruct (kubeconfigPart_resolves Expand env (length (heap st)) d
              (mkState (trace st) (heap st ++ [NewConfigFlags true])) Hk)
    as (st1 & -> & _ & _).
  destruct (localPart_keeps env (length (heap st)) d st1) as (st2 & -> & _).
  rewrite (credentialPart_nil env m0 d st2 Hm0), Hp. reflexivity.
Qed.

(** When the expansion of the kubeconfig path fails, [getK8sConfig] logs and
    returns the error, [buildSettings] drops it, and [providerConfigure]
    returns the [Meta], whose [ConfigFlags] is still nil, and a nil error. *)
Lemma providerConfigure_expansion_error Expand env d tv st err :
  expansionFails Expand d env err ->
  exists m,
    providerConfigure Expand env d tv st =
    Return ((Some m, None),
            mkState (trace st ++ [EvDebug ("[DEBUG] Error expanding path " +:+ err)])%list
                    (heap st ++ [NewConfigFlags true])%list) /\
    ConfigFlags_ m = None.
Proof.
  intros Hf.
  destruct (providerConfigure_getK8sConfig Expand env d tv) as (m0 & Hm0 & E).
  exists m0. split; [|assumption]. rewrite E.
  unfold getK8sConfigParts, alloc, mbind, M_bind.
  rewrite (kubeconfigPart_fails Expand env _ d _ err Hf). reflexivity.
Qed.

(** When the kubeconfig part resolves and no credential field is present,
    provider configuration completes: it returns a [Meta] whose [ConfigFlags]
    is the new object, and a nil error, and writes nothing to the log. *)
Lemma providerConfigure_completes Expand env d tv st :
  kubeconfigResolves Expand d env = true ->
  existsb (present d env) credentialFields = false ->
  exists m st',
    providerConfigure Expand env d tv st = Return ((Some m, None), st') /\
    ConfigFlags_ m = Some (length (heap st)) /\
    trace st' = trace st /\
    is_Some (heap st' !! length (heap st)).
Proof.
  intros Hk Hp.
  destruct (providerConfigure_getK8sConfig Expand env d tv) as (m0 & Hm0 & ->).
  unfold getK8sConfigParts, alloc, mbind, M_bind.
  destruct (kubeconfigPart_resolves Expand env (length (heap st)) d
              (mkState (trace st) (heap st ++ [NewConfigFlags true])) Hk)
    as (st1 & -> & Ht1 & Hl1).
  destruct (localPart_keeps env (length (heap st)) d st1) as (st2 & -> & Ht2 & Hl2 & _).
  rewrite (credentialPart_nil env m0 d st2 Hm0), Hp.
  eexists _, _. split; [reflexivity|]. split; [reflexivity|].
  split; [now rewrite Ht2, Ht1|].
  apply lookup_lt_is_Some. rewrite Hl2, Hl1. simpl. rewrite length_app. simpl. lia.
Qed.

(** When the kubeconfig path is consulted and expands, the expanded path is
    what is stored in the [KubeConfig] field of the local [cf]. *)
Lemma kubeconfigPart_expands Expand env cf d st v expanded :
  k8sGet d env "in_cluster" = Return (VBool false) ->
  k8sGet d env "load_config_file" = Return (VBool true) ->
  k8sGetOk d env "config_path" = Return (VString v, true) ->
  Expand v = (expanded, None) ->
  kubeconfigPart Expand env cf d st =
  Return (None, mkState (trace st) (alter (setKubeConfig (Some expanded)) cf (heap st))).
Proof.
  intros Hic Hl Hv He.
  unfold kubeconfigPart, mbind, M_bind, lift, outcome_bind, mret, M_ret.
  rewrite Hic, Hl. simpl. rewrite Hv. simpl. rewrite He. reflexivity.
Qed.

(** ** What a completed configuration holds *)

(** In every configuration and environment, when provider configuration
    returns a [Meta], its [ConfigFlags] is nil or points to an object whose
    credential fields are as [NewConfigFlags] left them: no username, no
    password, no token, [insecure] false. *)
Lemma providerConfigure_credentials_unset Expand env d tv st m e st' :
  providerConfigure Expand env d tv st = Return ((Some m, e), st') ->
  match ConfigFlags_ m with
  | None => True
  | Some a =>
      exists cf, heap st' !! a = Some cf /\
                 credentialsOf cf = credentialsOf (NewConfigFlags true)
  end.
Proof.
  destruct (providerConfigure_getK8sConfig Expand env d tv) as (m0 & Hm0 & ->).
  unfold getK8sConfigParts, alloc, mbind, M_bind, mret, M_ret.
  set (st1 := mkState (trace st) (heap st ++ [NewConfigFlags true])).
  destruct (kubeconfigPart Expand env (length (heap st)) d st1) as [[err st2]|p|] eqn:Ek;
    try discriminate.
  destruct (kubeconfigPart_keeps _ _ _ _ _ _ _ Ek) as [Hl2 Hk2].
  destruct err as [err|].
  - intros [= <- _ _]. now rewrite Hm0.
  - destruct (localPart_keeps env (length (heap st)) d st2) as (st3 & -> & _ & Hl3 & Hk3).
    rewrite (credentialPart_nil env m0 d st3 Hm0).
    destruct (existsb (present d env) credentialFields); [discriminate|].
    intros [= <- _ <-]. simpl.
    assert (Hlt : length (heap st) < length (heap st3)).
    { rewrite Hl3, Hl2. subst st1. simpl. rewrite length_app. simpl. lia. }
    apply lookup_lt_is_Some in Hlt as [cf Hcf]. exists cf. split; [assumption|].
    destruct (keepsCredentials_trans _ _ _ Hk2 Hk3 _ _ Hcf) as (c0 & H0 & <-).
    subst st1. simpl in H0.
    rewrite lookup_app_r in H0 by lia. rewrite Nat.sub_diag in H0.
    now injection H0 as <-.
Qed.

(** ** C1: username and password *)

(** C1, at the failing input [kubernetes { username = "alice"  password =
    "s3cret" }]: provider configuration does not store the two values, it
    panics on the nil [m.ConfigFlags] at the assignment of the username; and
    when [getK8sConfig] runs on a [Meta] whose [ConfigFlags] already points to
    an object, that object ends with the password in its [Username] field and
    with its [Password] field as it was, while the object that becomes
    [m.ConfigFlags] has both fields as [NewConfigFlags] left them. *)
Theorem username_password_not_stored :
  providerConfigure expandOp ∅ blockUserPassword "0.12" st0 = Panic NilPointerDereference /\
  exists m st,
    getK8sConfig expandOp ∅ (withConfigFlags (Some 0) (newMeta blockUserPassword))
      blockUserPassword stReady = Return ((m, None), st) /\
    Username <$> heap st !! 0 = Some (Some "s3cret") /\
    Password <$> heap st !! 0 = Some (Password (NewConfigFlags true)) /\
    ConfigFlags_ m = Some 1 /\
    Username <$> heap st !! 1 = Some (Username (NewConfigFlags true)) /\
    Password <$> heap st !! 1 = Some (Password (NewConfigFlags true)).
Proof.
  split; [vm_compute; reflexivity|].
  eexists _, _. split; [vm_compute; reflexivity|].
  repeat split; vm_compute; reflexivity.
Qed.

(** ** C2: the nil dereference *)

(** C2 as stated fails: with [username] present and a kubeconfig path whose
    expansion fails, provider configuration completes, returning the [Meta]
    and a nil error; it does not panic. *)
Lemma present_field_yet_configure_returns :
  present blockBadPath ∅ "username" = true /\
  exists m st,
    providerConfigure expandOp ∅ blockBadPath "0.12" st0 = Return ((Some m, None), st).
Proof.
  split; [vm_compute; reflexivity|].
  eexists _, _. vm_compute. reflexivity.
Qed.

(** C2, amended: when the kubeconfig part of [getK8sConfig] resolves (no
    failed type assertion on [load_config_file], no expansion error) and at
    least one of the eight fields is present, provider configuration never
    returns: it panics, with a nil-pointer dereference, or with a failed type
    assertion when the first present field is [insecure] supplied as a string
    by its environment variable. *)
Theorem present_field_panics Expand env d tv st :
  kubeconfigResolves Expand d env = true ->
  (exists key, key ∈ credentialFields /\ present d env key = true) ->
  providerConfigure Expand env d tv st =
  Panic (if insecureFromEnvFirst d env then InterfaceConversion else NilPointerDereference).
Proof.
  intros Hk (key & Hin & Hp).
  apply providerConfigure_nil_panic; [assumption|].
  apply existsb_exists. exists key. split; [|assumption].
  now apply list_elem_of_In.
Qed.

Lemma present_field_panics_witness :
  kubeconfigResolves expandOp blockUserPassword ∅ = true /\
  (exists key, key ∈ credentialFields /\ present blockUserPassword ∅ key = true) /\
  providerConfigure expandOp ∅ blockUserPassword "0.12" st0 = Panic NilPointerDereference.
Proof.
  assert (Hk : kubeconfigResolves expandOp blockUserPassword ∅ = true)
    by (vm_compute; reflexivity).
  assert (Hp : exists key, key ∈ credentialFields /\ present blockUserPassword ∅ key = true).
  { exists "password". split; [|vm_compute; reflexivity].
    unfold credentialFields. apply list_elem_of_further, list_elem_of_here. }
  split; [exact Hk|]. split; [exact Hp|].
  exact (present_field_panics expandOp ∅ blockUserPassword "0.12" st0 Hk Hp).
Defined.

(** ** C3: the expansion error *)

(** C3, at every failing input: when the kubeconfig path is consulted and its
    expansion fails with [err], the debug line is written, but the error does
    not leave [providerConfigure]: it returns the [Meta] and a nil error, and
    the [ConfigFlags] of that [Meta] is nil. *)
Theorem expansion_error_swallowed Expand env d tv st err :
  expansionFails Expand d env err ->
  exists m,
    providerConfigure Expand env d tv st =
    Return ((Some m, None),
            mkState (trace st ++ [EvDebug ("[DEBUG] Error expanding path " +:+ err)])%list
                    (heap st ++ [NewConfigFlags true])%list) /\
    ConfigFlags_ m = None.
Proof. apply providerConfigure_expansion_error. Qed.

Lemma expansion_error_swallowed_witness :
  expansionFails expandOp blockBadPath ∅ "cannot expand user-specific home dir" /\
  exists m,
    providerConfigure expandOp ∅ blockBadPath "0.12" st0 =
    Return ((Some m, None),
            mkState [EvDebug "[DEBUG] Error expanding path cannot expand user-specific home dir"]
                    [NewConfigFlags true]) /\
    ConfigFlags_ m = None.
Proof.
  assert (Hf : expansionFails expandOp blockBadPath ∅ "cannot expand user-specific home dir").
  { split; [vm_compute; reflexivity|]. split; [vm_compute; reflexivity|].
    exists "~bob/cfg". split; vm_compute; reflexivity. }
  split; [exact Hf|].
  exact (expansion_error_swallowed expandOp ∅ blockBadPath "0.12" st0 _ Hf).
Defined.

(** ** C4: validation of [helm_driver] *)

Lemma rangeDrivers_elem v drivers : rangeDrivers v drivers = true <-> v ∈ drivers.
Proof.
  induction drivers as [|d rest IH]; simpl.
  - split; [discriminate | intros H; apply elem_of_nil in H; contradiction].
  - rewrite elem_of_cons. destruct (String.eqb_spec d v) as [->|Hne].
    + split; auto.
    + rewrite IH. split; [auto | intros [->|H]; [contradiction | assumption]].
Qed.

(** C4: the validation function that the schema attaches to [helm_driver]
    returns no warning and, for every string, no error when the string
    lower-cased by [strings.ToLower] is one of [configmap], [secret] and
    [memory] (so in any casing of the three), and otherwise exactly one error,
    whose message starts with the lower-cased string. *)
Theorem helm_driver_validation (ToLower DataPath ConfigPath CachePath : string -> string) :
  exists sch validate,
    providerSchema ToLower DataPath ConfigPath CachePath !! "helm_driver" = Some sch /\
    ValidateFunc sch = Some validate /\
    forall val key : string,
      exists errs,
        validate (VString val) key = Return ([], errs) /\
        (errs = [] <-> ToLower val ∈ ["configmap"; "secret"; "memory"]) /\
        (ToLower val ∉ ["configmap"; "secret"; "memory"] ->
         errs = [ToLower val +:+ " must be a valid storage driver"]).
Proof.
  exists (mkSchema TypeString true 0 (Some (EnvDefaultFunc "HELM_DRIVER" (VString "secret")))
                  (Some (helmDriverValidateFunc ToLower))),
         (helmDriverValidateFunc ToLower).
  split; [vm_compute; reflexivity|]. split; [reflexivity|].
  intros val key. unfold helmDriverValidateFunc. simpl assertString.
  change (Return val ≫= _) with
    (if rangeDrivers (ToLower val) ["configmap"; "secret"; "memory"]
     then Return (([] : list string), ([] : list error))
     else Return ([], ([] ++ [ToLower val +:+ " must be a valid storage driver"])%list)).
  destruct (rangeDrivers (ToLower val) ["configmap"; "secret"; "memory"]) eqn:E.
  - apply rangeDrivers_elem in E. exists []. split; [reflexivity|].
    split; [tauto | intros H; contradiction].
  - exists [ToLower val +:+ " must be a valid storage driver"].
    split; [reflexivity|]. split; [|reflexivity].
    split; [discriminate|]. intros H. apply rangeDrivers_elem in H. congruence.
Qed.

(** The validation on ASCII input, where [strings.ToLower] is
    [asciiToLower]. *)
Example helm_driver_casings :
  helmDriverValidateFunc asciiToLower (VString "SeCrEt") "helm_driver" = Return ([], []) /\
  helmDriverValidateFunc asciiToLower (VString "ConfigMap") "helm_driver" = Return ([], []) /\
  helmDriverValidateFunc asciiToLower (VString "MEMORY") "helm_driver" = Return ([], []) /\
  helmDriverValidateFunc asciiToLower (VString "Etcd") "helm_driver" =
    Return ([], ["etcd must be a valid storage driver"]) /\
  helmDriverValidateFunc asciiToLower (VString "") "helm_driver" =
    Return ([], [" must be a valid storage driver"]).
Proof. repeat split; vm_compute; reflexivity. Qed.

(** ** C5: an explicit [false] *)

(** C5: for every boolean field of the nested block, a field that the block
    sets to [false] reads as [(false, true)] in every environment, so
    whatever its default function would return; and a field that the block
    does not set never reads as [(false, true)], so the two are told apart. *)
Theorem explicit_false_kept d env key sch :
  kubernetesResource !! key = Some sch ->
  Type_ sch = TypeBool ->
  (rd_bools d !! (k8sPrefix +:+ key) = Some false ->
   k8sGetOk d env key = Return (VBool false, true)) /\
  (rd_bools d !! (k8sPrefix +:+ key) = None ->
   k8sGetOk d env key <> Return (VBool false, true)).
Proof.
  intros H Ht. rewrite (k8sGetOk_field _ _ _ _ H).
  pose proof (addressTypes_nested _ _ H) as Ha. rewrite Ht in Ha.
  unfold setValue, blockValue. rewrite Ha. split; intros E; rewrite E; simpl.
  - reflexivity.
  - clear Ha E. apply kubernetesResource_elem in H.
    each_field H; simpl in *; try discriminate;
      try (destruct (negb (Getenv env _ =? "")); simpl; discriminate).
Qed.

Lemma explicit_false_kept_witness :
  k8sGetOk blockInsecureFalse {[ "KUBE_INSECURE" := "true" ]} "insecure" =
  Return (VBool false, true).
Proof.
  apply (explicit_false_kept blockInsecureFalse {[ "KUBE_INSECURE" := "true" ]} "insecure"
           (envField TypeBool "KUBE_INSECURE" (VBool false)));
    vm_compute; reflexivity.
Defined.

(** ** C9: the default of the kubeconfig path *)

Lemma Getenv_present env k :
  presentEnv env [k] = if negb (Getenv env k =? "") then Some (Getenv env k) else None.
Proof.
  unfold presentEnv, Getenv. destruct (env !! k) as [[|c s]|]; reflexivity.
Qed.

(** The loop of [MultiEnvDefaultFunc] finds the first present variable. *)
Lemma multiEnv_presentEnv env ks dv :
  multiEnv env ks dv =
  match presentEnv env ks with
  | Some s => VString s
  | None => dv
  end.
Proof.
  induction ks as [|k ks IH]; simpl; [reflexivity|].
  unfold Getenv. destruct (env !! k) as [[|c s]|]; simpl; auto.
Qed.

Lemma presentEnv_nonempty env ks s : presentEnv env ks = Some s -> s <> "".
Proof.
  induction ks as [|k ks IH]; simpl; [discriminate|].
  destruct (env !! k) as [[|c t]|]; auto. intros [= <-]. discriminate.
Qed.

(** C9: when the block sets no [config_path], the kubeconfig path is the value
    of [KUBE_CONFIG] when that variable is present, else the value of
    [KUBECONFIG] when that one is, else [~/.kube/config]; in each case the
    lookup reports the path as set. *)
Theorem config_path_default d env :
  rd_strings d !! "kubernetes.0.config_path" = None ->
  k8sGetOk d env "config_path" =
  Return (VString (default "~/.kube/config" (presentEnv env ["KUBE_CONFIG"; "KUBECONFIG"])),
          true).
Proof.
  intros H.
  rewrite (k8sGetOk_field d env "config_path"
             (mkSchema TypeString true 0
                (Some (MultiEnvDefaultFunc ["KUBE_CONFIG"; "KUBECONFIG"]
                         (VString "~/.kube/config"))) None))
    by (vm_compute; reflexivity).
  unfold setValue, blockValue.
  replace (addressTypes !! (k8sPrefix +:+ "config_path")) with (Some TypeString)
    by (vm_compute; reflexivity).
  change (k8sPrefix +:+ "config_path") with "kubernetes.0.config_path".
  rewrite H. cbn [fmap option_fmap option_map DefaultFunc callDefaultFunc].
  rewrite multiEnv_presentEnv.
  destruct (presentEnv env ["KUBE_CONFIG"; "KUBECONFIG"]) as [s|] eqn:E; [|reflexivity].
  apply presentEnv_nonempty in E. destruct s; [contradiction | reflexivity].
Qed.

Lemma config_path_default_witness :
  k8sGetOk blockEmpty {[ "KUBECONFIG" := "/etc/kube/admin.conf" ]} "config_path" =
  Return (VString "/etc/kube/admin.conf", true).
Proof.
  rewrite (config_path_default blockEmpty {[ "KUBECONFIG" := "/etc/kube/admin.conf" ]})
    by (vm_compute; reflexivity).
  vm_compute. reflexivity.
Defined.

(** ** C6: block value, environment variable, hard-coded default *)

Lemma callDefaultFunc_precedence f env :
  callDefaultFunc f env = precedence None (presentEnv env (envNames f)) (hardDefault f).
Proof.
  destruct f as [k dv|ks dv]; simpl callDefaultFunc; simpl envNames; simpl hardDefault.
  - rewrite Getenv_present. destruct (negb (Getenv env k =? "")); reflexivity.
  - rewrite multiEnv_presentEnv. destruct (presentEnv env ks); reflexivity.
Qed.

(** [k8sGet] follows the three layers, a block value being one the
    accessors count as set. *)
Lemma k8sGet_precedence d env key sch :
  kubernetesResource !! key = Some sch ->
  k8sGet d env key =
  Return (precedence (setValue d (k8sPrefix +:+ key))
            (presentEnv env (schemaEnv sch)) (schemaHard sch)).
Proof.
  intros H.
  rewrite k8sGet_unfold, (k8sGetOk_field _ _ _ _ H). unfold schemaEnv, schemaHard.
  destruct (setValue d (k8sPrefix +:+ key)); [reflexivity|].
  destruct (DefaultFunc sch) as [f|]; simpl; [|reflexivity].
  now rewrite callDefaultFunc_precedence.
Qed.

(** A nested string field that the block sets to the empty string counts
    as absent, because [k8sGetOk] tests it with [d.GetOk]: with
    [kubernetes { host = "" }] and [KUBE_HOST] set, the lookup returns the
    value of the environment variable. *)
Lemma empty_block_value_loses_to_env :
  exists d,
    schemaData {[ "KUBE_HOST" := "https://10.0.0.1" ]} opFields blockEmptyHost = Some d /\
    blockValue blockEmptyHost "kubernetes.0.host" = Some (VString "") /\
    k8sGetOk d {[ "KUBE_HOST" := "https://10.0.0.1" ]} "host" =
    Return (VString "https://10.0.0.1", true).
Proof.
  eexists. split; [vm_compute; reflexivity|].
  split; vm_compute; reflexivity.
Qed.

(** ** C7: the end-to-end scenario *)

(** C7, at its input: for the block [helm_driver = "secret"],
    [helm_namespace = "ops"], [kubernetes { insecure = true }] and an empty
    environment, the provider receives data in which the driver is [secret],
    the namespace is [ops] and [insecure] is present and [true]; whatever
    [homedir.Expand] does, provider configuration then either panics on the
    nil [m.ConfigFlags] at the assignment of [insecure], or (when the
    expansion of [~/.kube/config] fails) returns a [Meta] whose [ConfigFlags]
    is nil.  In neither case is there a [ConfigFlags] with namespace [ops] and
    [insecure] true. *)
Theorem scenario_configure_fails (Expand : string -> string * option error) tv st :
  exists d,
    schemaData ∅ opFields blockScenario = Some d /\
    Get d "helm_driver" = VString "secret" /\
    Get d "helm_namespace" = VString "ops" /\
    k8sGetOk d ∅ "insecure" = Return (VBool true, true) /\
    (providerConfigure Expand ∅ d tv st = Panic NilPointerDereference \/
     exists m st',
       providerConfigure Expand ∅ d tv st = Return ((Some m, None), st') /\
       ConfigFlags_ m = None).
Proof.
  pose (d := default blockEmpty (schemaData ∅ opFields blockScenario)).
  assert (Hd : schemaData ∅ opFields blockScenario = Some d) by (vm_compute; reflexivity).
  assert (Hic : k8sGet d ∅ "in_cluster" = Return (VBool false)) by (vm_compute; reflexivity).
  assert (Hl : k8sGet d ∅ "load_config_file" = Return (VBool true))
    by (vm_compute; reflexivity).
  assert (Hc : k8sGetOk d ∅ "config_path" = Return (VString "~/.kube/config", true))
    by (vm_compute; reflexivity).
  assert (Hp : existsb (present d ∅) credentialFields = true) by (vm_compute; reflexivity).
  assert (Hi : insecureFromEnvFirst d ∅ = false) by (vm_compute; reflexivity).
  exists d. split; [exact Hd|].
  split; [vm_compute; reflexivity|]. split; [vm_compute; reflexivity|].
  split; [vm_compute; reflexivity|].
  clearbody d.
  destruct (Expand "~/.kube/config") as [p [err|]] eqn:He.
  - right.
    destruct (providerConfigure_expansion_error Expand ∅ d tv st err) as (m & E & Hm).
    { split; [exact Hic|]. split; [exact Hl|].
      exists "~/.kube/config". split; [exact Hc|]. now rewrite He. }
    eauto.
  - left. rewrite (providerConfigure_nil_panic Expand ∅ d tv st); [now rewrite Hi | | exact Hp].
    unfold kubeconfigResolves. now rewrite Hic, Hl, Hc, He.
Qed.

(** ** C8: the result of [GetHelmConfiguration] *)

(** C8: on a [Meta] whose mutex is free, [GetHelmConfiguration] takes the
    mutex, calls [Init] once, on the zero configuration, with the
    [ConfigFlags] of the [Meta], the namespace and the driver, releases the
    mutex and returns: when [Init] returns an error, no configuration and
    that very error; otherwise the configuration [Init] initialised and no
    error.  Nothing else happens: the trace grows by the three events, the
    heap and the [Meta] are as before.  The call ends otherwise only when
    [Init] does: it panics when [Init] panics. *)
Theorem GetHelmConfiguration_result (Configuration : Type) (zero : Configuration)
    (Init : list event -> Configuration -> option ConfigFlags -> string -> string ->
            outcome (Configuration * option error))
    (m : Meta) (namespace : string) (st : State) :
  Mutex m = false ->
  let getter := ConfigFlags_ m ≫= (fun a => heap st !! a) in
  GetHelmConfiguration Configuration zero Init m namespace st =
  match Init (trace st ++ [EvLock])%list zero getter namespace (HelmDriver m) with
  | Return r =>
      Return ((m, match snd r with
                  | Some err => (None, Some err)
                  | None => (Some (fst r), None)
                  end),
              mkState (trace st ++
                       [EvLock; EvInit getter namespace (HelmDriver m); EvUnlock])%list
                      (heap st))
  | Panic p => Panic p
  | Blocked => Blocked
  end.
Proof.
  intros Hm getter. subst getter.
  destruct m as [dt se cf hd mu]. simpl in Hm. subst mu.
  unfold GetHelmConfiguration, Lock, Unlock, callInit, mbind, M_bind, mret, M_ret.
  simpl.
  destruct (Init _ _ _ _ _) as [[c [err|]]|p|]; simpl; rewrite <- ?app_assoc; reflexivity.
Qed.

Lemma GetHelmConfiguration_result_witness :
  GetHelmConfiguration string "" initByDriver metaReady "ops" stReady =
  Return ((metaReady, (Some "secret", None)),
          mkState [EvLock; EvInit (Some (NewConfigFlags true)) "ops" "secret"; EvUnlock]
                  [NewConfigFlags true]).
Proof.
  exact (GetHelmConfiguration_result string "" initByDriver metaReady "ops" stReady eq_refl).
Defined.

(** ** C10: concurrent callers are serialised *)

Lemma holderAfter_snoc t e : holderAfter (t ++ [e]) = holderStep (holderAfter t) e.
Proof. unfold holderAfter. now rewrite fold_left_app. Qed.

(** A move that does not fit ruins the reading for good. *)
Lemma run_invalid t : fold_left holderStep t None = None.
Proof. induction t as [|e t IH]; simpl; auto. Qed.

(** While caller [i] holds the mutex, every move is a move of [i]. *)
Lemma held_block_own i t2 j e t3 :
  fold_left holderStep (t2 ++ (j, e) :: t3) (Some (Some i)) <> None ->
  (i, EvUnlock) ∉ t2 -> j = i.
Proof.
  induction t2 as [|[j' e'] t2 IH]; simpl; intros Hrun Hno.
  - destruct e; simpl in Hrun.
    + now rewrite run_invalid in Hrun.
    + now rewrite run_invalid in Hrun.
    + destruct (Nat.eqb_spec j i); [assumption | now rewrite run_invalid in Hrun].
    + destruct (Nat.eqb_spec j i); [assumption | now rewrite run_invalid in Hrun].
  - apply not_elem_of_cons in Hno as [Hne Hno].
    destruct e'; simpl in Hrun.
    + now rewrite run_invalid in Hrun.
    + now rewrite run_invalid in Hrun.
    + destruct (Nat.eqb_spec j' i) as [->|]; [congruence | now rewrite run_invalid in Hrun].
    + destruct (Nat.eqb_spec j' i); [auto | now rewrite run_invalid in Hrun].
Qed.

(** While caller [i] holds the mutex, nobody takes it. *)
Lemma held_block_release i t2 j t3 :
  fold_left holderStep (t2 ++ (j, EvLock) :: t3) (Some (Some i)) <> None ->
  (i, EvUnlock) ∈ t2.
Proof.
  induction t2 as [|[j' e'] t2 IH]; simpl; intros Hrun.
  - now rewrite run_invalid in Hrun.
  - destruct e'; simpl in Hrun.
    + now rewrite run_invalid in Hrun.
    + now rewrite run_invalid in Hrun.
    + destruct (Nat.eqb_spec j' i) as [->|]; [| now rewrite run_invalid in Hrun].
      apply list_elem_of_here.
    + destruct (Nat.eqb_spec j' i); [| now rewrite run_invalid in Hrun].
      apply list_elem_of_further. auto.
Qed.

(** After a valid history that ends with caller [i] taking the mutex, [i]
    holds it. *)
Lemma run_lock t1 i rest :
  holderAfter (t1 ++ (i, EvLock) :: rest) <> None ->
  holderAfter (t1 ++ (i, EvLock) :: rest) = fold_left holderStep rest (Some (Some i)).
Proof.
  unfold holderAfter. rewrite fold_left_app. simpl.
  destruct (fold_left holderStep t1 (Some None)) as [[k|]|]; simpl;
    rewrite ?run_invalid; congruence.
Qed.

(** A history that ends with an event, split at an earlier event. *)
Lemma snoc_split {A : Type} (t1 t2 h : list A) (x y : A) :
  (t1 ++ x :: t2 = h ++ [y])%list ->
  (t2 = [] /\ t1 = h /\ x = y) \/
  (exists t2', t2 = (t2' ++ [y])%list /\ h = (t1 ++ x :: t2')%list).
Proof.
  destruct t2 as [|z t2 _] using rev_ind; intros H.
  - left. apply app_inj_tail in H as [-> ->]. auto.
  - right. exists t2.
    change (t1 ++ x :: t2 ++ [z])%list with (t1 ++ (x :: t2) ++ [z])%list in H.
    rewrite app_assoc in H. apply app_inj_tail in H as [<- ->]. auto.
Qed.

(** The events a statement added, when it appended them to the trace. *)
Lemma added_app tr h l : added (mkState tr h) (mkState (tr ++ l)%list h) = l.
Proof. unfold added. simpl. apply drop_app_length. Qed.

Section Callers.

Variable Configuration : Type.
Variable zero : Configuration.
Variable Init :
  list event -> Configuration -> option ConfigFlags -> string -> string ->
  outcome (Configuration * option error).

(** The statements of [GetHelmConfigurationSteps], run from the first to the
    return, are [GetHelmConfiguration]. *)
Lemma GetHelmConfigurationSteps_run m namespace st :
  runSteps (GetHelmConfigurationSteps Configuration zero Init namespace) m st = GetHelmConfiguration Configuration zero Init m namespace st.
Proof.
  unfold GetHelmConfiguration, GetHelmConfigurationSteps, fromInit, deferredUnlock.
  simpl. unfold changing, reading, mbind, M_bind, mret, M_ret.
  destruct (Lock m st) as [[m1 st1]|p|]; [|reflexivity|reflexivity].
  destruct (callInit Configuration Init zero m1 namespace st1) as [[[c [err|]] st2]|p|];
    try reflexivity; simpl;
    destruct (Unlock m1 st2) as [[m3 st3]|p|]; reflexivity.
Qed.

(** The move of a caller, by where it is in its body. *)
Lemma move_start (w : World (option Configuration * option error)) i namespace :
  callers w !! i = Some (GetHelmConfigurationSteps Configuration zero Init namespace) ->
  move i w =
  if Mutex (shared w) then None
  else Some (mkWorld (withMutex true (shared w))
                     (mkState (trace (state w) ++ [EvLock])%list (heap (state w)))
                     (<[i := fromInit Configuration zero Init namespace]> (callers w))
                     (history w ++ [(i, EvLock)])%list).
Proof.
  intros H. unfold move. rewrite H. destruct w as [m [tr hp] cs h]. simpl.
  unfold changing, Lock, mbind, M_bind, mret, M_ret. simpl.
  destruct (Mutex m); [reflexivity|]. now rewrite added_app.
Qed.

Lemma move_calling (w : World (option Configuration * option error)) i namespace :
  callers w !! i = Some (fromInit Configuration zero Init namespace) ->
  move i w =
  let getter := ConfigFlags_ (shared w) ≫= (fun a => heap (state w) !! a) in
  match Init (trace (state w)) zero getter namespace (HelmDriver (shared w)) with
  | Return r =>
      Some (mkWorld (shared w)
                    (mkState (trace (state w) ++
                              [EvInit getter namespace (HelmDriver (shared w))])%list
                             (heap (state w)))
                    (<[i := deferredUnlock Configuration match snd r with
                                    | Some err => (None, Some err)
                                    | None => (Some (fst r), None)
                                    end]> (callers w))
                    (history w ++ [(i, EvInit getter namespace (HelmDriver (shared w)))])%list)
  | _ => None
  end.
Proof.
  intros H. unfold move. rewrite H. destruct w as [m [tr hp] cs h]. simpl.
  unfold reading, callInit, mbind, M_bind, mret, M_ret. simpl.
  destruct (Init _ _ _ _ _) as [[c [err|]]|p|]; try reflexivity;
    now rewrite added_app.
Qed.

Lemma move_leaving (w : World (option Configuration * option error)) i result :
  callers w !! i = Some (deferredUnlock Configuration result) ->
  move i w =
  Some (mkWorld (withMutex false (shared w))
                (mkState (trace (state w) ++ [EvUnlock])%list (heap (state w)))
                (<[i := Done result]> (callers w))
                (history w ++ [(i, EvUnlock)])%list).
Proof.
  intros H. unfold move. rewrite H. destruct w as [m [tr hp] cs h]. simpl.
  unfold changing, Unlock, mbind, M_bind, mret, M_ret. simpl.
  now rewrite added_app.
Qed.

Lemma move_done (w : World (option Configuration * option error)) i result :
  callers w !! i = Some (Done result) -> move i w = None.
Proof. intros H. unfold move. now rewrite H. Qed.

(** A caller outside stays outside while another one moves. *)
Lemma outside_other i j e body h :
  i <> j -> outside Configuration zero Init i body h ->
  outside Configuration zero Init i body (h ++ [(j, e)])%list.
Proof.
  intros Hne [(ns & -> & Hno)|(r & -> & Hl & Hu)].
  - left. exists ns. split; [reflexivity|]. intros e' He'.
    apply elem_of_app in He' as [He'|He']; [now apply Hno in He'|].
    apply list_elem_of_singleton in He'. congruence.
  - right. exists r. split; [reflexivity|]. split; apply elem_of_app; auto.
Qed.

Lemma inside_own i e h :
  e <> EvUnlock -> inside i h -> inside i (h ++ [(i, e)])%list.
Proof.
  intros He [Hl Hu]. split; [apply elem_of_app; auto|].
  intros H. apply elem_of_app in H as [H|H]; [contradiction|].
  apply list_elem_of_singleton in H. congruence.
Qed.

Lemma consistent_initial m st namespaces :
  Mutex m = false -> consistent Configuration zero Init m st (initial Configuration zero Init m st namespaces).
Proof.
  intros Hm. unfold consistent, initial. simpl.
  split; [destruct m; simpl in *; now subst|].
  split; [reflexivity|]. split; [now rewrite app_nil_r|].
  split; [intros i _ e H; now apply elem_of_nil in H|].
  split; [intros t1 t2 i g ns d H; now destruct t1|].
  split; [assumption|].
  intros i body H. apply list_lookup_fmap_Some in H as (ns & -> & _).
  left. exists ns. split; [reflexivity|]. intros e H. now apply elem_of_nil in H.
Qed.

(** What every move keeps: the callers that are not there made no move,
    and every call of [Init] was made inside a critical section. *)
Lemma consistent_history (w : World (option Configuration * option error)) i e body body' :
  callers w !! i = Some body ->
  (forall j, callers w !! j = None -> forall e', (j, e') ∉ history w) ->
  (forall t1 t2 j g ns d,
     history w = (t1 ++ (j, EvInit g ns d) :: t2)%list -> inside j t1) ->
  (forall g ns d, e = EvInit g ns d -> inside i (history w)) ->
  (forall j, <[i := body']> (callers w) !! j = None ->
             forall e', (j, e') ∉ (history w ++ [(i, e)])%list) /\
  (forall t1 t2 j g ns d,
     (history w ++ [(i, e)])%list = (t1 ++ (j, EvInit g ns d) :: t2)%list -> inside j t1).
Proof.
  intros Hi Hnone Hinit He. split.
  - intros j Hj e' Hin.
    assert (Hji : j <> i).
    { intros ->. rewrite list_lookup_insert_eq in Hj by (eapply lookup_lt_Some, Hi).
      discriminate. }
    rewrite list_lookup_insert_ne in Hj by congruence.
    apply elem_of_app in Hin as [Hin|Hin]; [now apply (Hnone j Hj e')|].
    apply list_elem_of_singleton in Hin. congruence.
  - intros t1 t2 j g ns d H. symmetry in H.
    apply snoc_split in H as [(_ & -> & E)|(t2' & _ & Hw)].
    + injection E as -> <-. eauto.
    + eauto.
Qed.

Lemma consistent_step m st w w' : consistent Configuration zero Init m st w -> step w w' -> consistent Configuration zero Init m st w'.
Proof.
  intros (Hsh & Hheap & Htr & Hnone & Hinit & Hpos) [i Hmove].
  destruct (callers w !! i) as [body|] eqn:Hi;
    [|unfold move in Hmove; rewrite Hi in Hmove; discriminate Hmove].
  destruct (holderAfter (history w)) as [[k|]|] eqn:Hh; [| |contradiction].
  - destruct Hpos as (Hmu & Hin & (bk & Hk & Hhold) & Hout).
    destruct (decide (i = k)) as [->|Hne].
    + rewrite Hk in Hi. injection Hi as <-. destruct Hhold as [[ns ->]|[r ->]].
      * rewrite (move_calling w k ns Hk) in Hmove. cbv zeta in Hmove.
        destruct (Init _ _ _ _ _) as [r|p|]; [|discriminate Hmove|discriminate Hmove].
        injection Hmove as <-.
        destruct (consistent_history w k
                    (EvInit (ConfigFlags_ (shared w) ≫= (fun a => heap (state w) !! a))
                       ns (HelmDriver (shared w)))
                    _ (deferredUnlock Configuration match snd r with
                               | Some err => (None, Some err)
                               | None => (Some (fst r), None)
                               end) Hk Hnone Hinit) as [Hn' Hi']; [intros; assumption|].
        unfold consistent. simpl.
        split; [assumption|]. split; [assumption|].
        split; [rewrite Htr, map_app, app_assoc; reflexivity|].
        split; [assumption|]. split; [assumption|].
        rewrite holderAfter_snoc, Hh. simpl. rewrite Nat.eqb_refl.
        split; [assumption|]. split; [apply inside_own; [discriminate | assumption]|].
        split.
        -- eexists. split; [apply list_lookup_insert_eq; eapply lookup_lt_Some, Hk|].
           right. eauto.
        -- intros j body Hj Hb. rewrite list_lookup_insert_ne in Hb by congruence.
           apply outside_other; [assumption | eauto].
      * rewrite (move_leaving w k r Hk) in Hmove. injection Hmove as <-.
        destruct (consistent_history w k EvUnlock _ (Done r) Hk Hnone Hinit)
          as [Hn' Hi']; [intros g ns d H; discriminate H|].
        unfold consistent. simpl.
        split; [rewrite Hsh; reflexivity|]. split; [assumption|].
        split; [rewrite Htr, map_app, app_assoc; reflexivity|].
        split; [assumption|]. split; [assumption|].
        rewrite holderAfter_snoc, Hh. simpl. rewrite Nat.eqb_refl.
        split; [reflexivity|].
        intros j body Hb. destruct (decide (j = k)) as [->|Hj].
        -- rewrite list_lookup_insert_eq in Hb by (eapply lookup_lt_Some, Hk).
           injection Hb as <-. right. exists r. split; [reflexivity|].
           destruct Hin as [Hl _].
           split; apply elem_of_app; [left; assumption | right; apply list_elem_of_here].
        -- rewrite list_lookup_insert_ne in Hb by congruence.
           apply outside_other; [assumption | eauto].
    + destruct (Hout i body Hne Hi) as [(ns & -> & _)|(r & -> & _)].
      * rewrite (move_start w i ns Hi), Hmu in Hmove. discriminate Hmove.
      * rewrite (move_done w i r Hi) in Hmove. discriminate Hmove.
  - destruct Hpos as (Hmu & Hout).
    destruct (Hout i body Hi) as [(ns & -> & Hno)|(r & -> & _)].
    + rewrite (move_start w i ns Hi), Hmu in Hmove. injection Hmove as <-.
      destruct (consistent_history w i EvLock _ (fromInit Configuration zero Init ns) Hi Hnone Hinit)
        as [Hn' Hi']; [intros g ns' d H; discriminate H|].
      unfold consistent. simpl.
      split; [rewrite Hsh; reflexivity|]. split; [assumption|].
      split; [rewrite Htr, map_app, app_assoc; reflexivity|].
      split; [assumption|]. split; [assumption|].
      rewrite holderAfter_snoc, Hh. simpl.
      split; [reflexivity|]. split.
      * split; [apply elem_of_app; right; apply list_elem_of_here|].
        intros H. apply elem_of_app in H as [H|H]; [now apply Hno in H|].
        apply list_elem_of_singleton in H. discriminate H.
      * split.
        -- eexists. split; [apply list_lookup_insert_eq; eapply lookup_lt_Some, Hi|].
           left. eauto.
        -- intros j body Hj Hb. rewrite list_lookup_insert_ne in Hb by congruence.
           apply outside_other; [assumption | eauto].
    + rewrite (move_done w i r Hi) in Hmove. discriminate Hmove.
Qed.

Lemma reachable_consistent m st namespaces w :
  Mutex m = false ->
  reachable (initial Configuration zero Init m st namespaces) w -> consistent Configuration zero Init m st w.
Proof.
  intros Hm. induction 1 as [|w w' _ IH Hs]; [now apply consistent_initial|].
  eapply consistent_step; eauto.
Qed.

(** Outside its critical section a caller is not inside it. *)
Lemma outside_not_inside i body h :
  outside Configuration zero Init i body h -> ~ inside i h.
Proof.
  intros [(ns & _ & Hno)|(r & _ & _ & Hu)] [Hl Hnu]; [now apply Hno in Hl | contradiction].
Qed.

(** In a consistent world the holder the history reads is the one caller
    inside its critical section. *)
Lemma consistent_inside m st w i :
  consistent Configuration zero Init m st w -> inside i (history w) -> holderAfter (history w) = Some (Some i).
Proof.
  intros (_ & _ & _ & Hnone & _ & Hpos) Hin.
  assert (Hout : forall body, callers w !! i = Some body ->
                   outside Configuration zero Init i body (history w) -> False)
    by (intros body _ Ho; exact (outside_not_inside _ _ _ Ho Hin)).
  destruct (callers w !! i) as [body|] eqn:Hi.
  - destruct (holderAfter (history w)) as [[k|]|]; [| |contradiction].
    + destruct Hpos as (_ & _ & _ & Ho).
      destruct (decide (i = k)) as [->|Hne]; [reflexivity|].
      exfalso. eapply Hout; eauto.
    + destruct Hpos as (_ & Ho). exfalso. eapply Hout; eauto.
  - destruct Hin as [Hl _]. now apply (Hnone i Hi) in Hl.
Qed.

End Callers.

(** A schedule that can be run leads to a reachable world. *)
Lemma run_reachable {A : Type} (schedule : list nat) (w0 w : World A) :
  run schedule w0 = Some w -> reachable w0 w.
Proof.
  revert w. induction schedule as [|i schedule IH] using rev_ind; intros w.
  - intros [= <-]. constructor.
  - unfold run. rewrite fold_left_app. simpl. fold (run schedule w0).
    destruct (run schedule w0) as [w1|]; [|discriminate]. simpl. intros Hm.
    eapply reachable_step; [apply IH; reflexivity|]. exists i. exact Hm.
Qed.

Lemma worldSecond_reachable : reachable worldStart worldSecond.
Proof. apply (run_reachable [0; 0; 0; 1]). vm_compute. reflexivity. Qed.

(** C10: [n] callers run [GetHelmConfiguration] at the same time on one
    [Meta] whose mutex is free, each statement by statement
    ([GetHelmConfigurationSteps] is the function: run alone, from the first
    statement to the return, it is [GetHelmConfiguration]).  In every world
    they can reach,
    - the trace is the history of their moves;
    - the mutex of the [Meta] is held exactly when some caller is inside its
      critical section, and at most one caller is;
    - every call of [Init] was made by a caller inside its critical section;
    - from the move in which a caller takes the mutex until the move in
      which it releases it, every move is its own, so the calls of [Init]
      of two callers never interleave;
    - any two acquisitions of the mutex are ordered: the caller of the
      earlier one has released the mutex before the later one happens. *)
Theorem calls_serialised (Configuration : Type) (zero : Configuration)
    (Init : list event -> Configuration -> option ConfigFlags -> string -> string ->
            outcome (Configuration * option error))
    (m : Meta) (st : State) (namespaces : list string)
    (w : World (option Configuration * option error)) :
  Mutex m = false ->
  reachable (initial Configuration zero Init m st namespaces) w ->
  (forall m' namespace st',
     runSteps (GetHelmConfigurationSteps Configuration zero Init namespace) m' st' =
     GetHelmConfiguration Configuration zero Init m' namespace st') /\
  trace (state w) = (trace st ++ map snd (history w))%list /\
  (Mutex (shared w) = true <-> exists i, inside i (history w)) /\
  (forall i j, inside i (history w) -> inside j (history w) -> i = j) /\
  (forall t1 t2 i getter namespace helmDriver,
     history w = (t1 ++ (i, EvInit getter namespace helmDriver) :: t2)%list ->
     inside i t1) /\
  (forall t1 t2 t3 i j e,
     history w = (t1 ++ (i, EvLock) :: t2 ++ (j, e) :: t3)%list ->
     (i, EvUnlock) ∉ t2 -> j = i) /\
  (forall t1 t2 t3 i j,
     history w = (t1 ++ (i, EvLock) :: t2 ++ (j, EvLock) :: t3)%list ->
     (i, EvUnlock) ∈ t2).
Proof.
  intros Hm Hr. pose proof (reachable_consistent _ _ _ _ _ _ _ Hm Hr) as Hc.
  pose proof (fun i => consistent_inside Configuration zero Init m st w i) as Hone.
  destruct Hc as (Hsh & Hheap & Htr & Hnone & Hinit & Hpos).
  assert (Hc : consistent Configuration zero Init m st w)
    by (unfold consistent; auto 10).
  assert (Hvalid : holderAfter (history w) <> None)
    by (destruct (holderAfter (history w)); [discriminate | contradiction]).
  split; [intros; apply GetHelmConfigurationSteps_run|].
  split; [exact Htr|]. split; [|split; [|split; [|split]]].
  - split.
    + intros Hmu. destruct (holderAfter (history w)) as [[k|]|]; [| |contradiction].
      * destruct Hpos as (_ & Hin & _). eauto.
      * destruct Hpos as (Hf & _). congruence.
    + intros [i Hi]. rewrite (Hone i Hc Hi) in Hpos. now destruct Hpos.
  - intros i j Hi Hj. pose proof (Hone i Hc Hi) as E. rewrite (Hone j Hc Hj) in E.
    now injection E.
  - exact Hinit.
  - intros t1 t2 t3 i j e E Hno. rewrite E in Hvalid.
    rewrite run_lock in Hvalid by assumption.
    eapply held_block_own; eauto.
  - intros t1 t2 t3 i j E. rewrite E in Hvalid.
    rewrite run_lock in Hvalid by assumption.
    eapply held_block_release; eauto.
Qed.

Lemma calls_serialised_witness :
  Mutex metaReady = false /\
  reachable worldStart worldSecond /\
  history worldSecond =
    [(0, EvLock); (0, EvInit (Some (NewConfigFlags true)) "ops" "secret"); (0, EvUnlock);
     (1, EvLock)] /\
  (forall i j, inside i (history worldSecond) -> inside j (history worldSecond) -> i = j).
Proof.
  split; [reflexivity|]. split; [exact worldSecond_reachable|].
  split; [vm_compute; reflexivity|].
  exact (proj1 (proj2 (proj2 (proj2
           (calls_serialised string "" initByDriver metaReady stReady ["ops"; "dev"; "qa"]
              worldSecond eq_refl worldSecond_reachable))))).
Defined.

(** * Further properties *)

(** ** The nested lookup *)

Lemma setValue_nonempty d key s : setValue d key = Some (VString s) -> s <> "".
Proof.
  unfold setValue. destruct (blockValue d key) as [[| |[|c t]]|]; intros E;
    try discriminate E; injection E as <-; discriminate.
Qed.

(** A string field reads as a string, and as present exactly when the
    string is not empty. *)
Lemma k8sGetOk_string_ok d env key sch :
  kubernetesResource !! key = Some sch ->
  Type_ sch = TypeString ->
  exists s, k8sGetOk d env key = Return (VString s, negb (String.eqb s "")).
Proof.
  intros H Ht. rewrite (k8sGetOk_field _ _ _ _ H).
  pose proof (addressTypes_nested _ _ H) as Ha. rewrite Ht in Ha.
  destruct (setValue d (k8sPrefix +:+ key)) as [v|] eqn:E.
  - destruct (setValue_string _ _ _ Ha E) as [s ->]. exists s.
    apply setValue_nonempty in E. destruct s; [contradiction | reflexivity].
  - destruct (DefaultFunc sch) as [f|] eqn:Ef.
    + destruct (nested_default_string _ _ _ env H Ht Ef) as [s ->]. exists s. reflexivity.
    + rewrite Ht. exists "". reflexivity.
Qed.

(** X6: for every string field of the nested block, the lookup returns a
    string and reports the field as present exactly when that string is not
    empty, wherever the string comes from (block, environment, default). *)
Theorem string_field_present_iff_nonempty d env key sch :
  kubernetesResource !! key = Some sch ->
  Type_ sch = TypeString ->
  exists s, k8sGetOk d env key = Return (VString s, negb (String.eqb s "")).
Proof. apply k8sGetOk_string_ok. Qed.

Lemma string_field_present_iff_nonempty_witness :
  exists s, k8sGetOk blockContext {[ "KUBE_HOST" := "https://10.0.0.1" ]} "host" =
            Return (VString s, negb (String.eqb s "")).
Proof.
  apply (string_field_present_iff_nonempty blockContext {[ "KUBE_HOST" := "https://10.0.0.1" ]}
           "host" (envField TypeString "KUBE_HOST" (VString "")));
    vm_compute; reflexivity.
Defined.

(** The kubeconfig path is always present: the block's when it is not
    empty, else a non-empty variable, else the non-empty default. *)
Lemma config_path_present d env :
  exists path, k8sGetOk d env "config_path" = Return (VString path, true) /\ path <> "".
Proof.
  rewrite (k8sGetOk_field d env "config_path"
             (mkSchema TypeString true 0
                (Some (MultiEnvDefaultFunc ["KUBE_CONFIG"; "KUBECONFIG"]
                         (VString "~/.kube/config"))) None))
    by (vm_compute; reflexivity).
  destruct (setValue d (k8sPrefix +:+ "config_path")) as [v|] eqn:E.
  - assert (Ha : addressTypes !! (k8sPrefix +:+ "config_path") = Some TypeString)
      by (vm_compute; reflexivity).
    destruct (setValue_string _ _ _ Ha E) as [s ->].
    exists s. split; [reflexivity | now apply setValue_nonempty in E].
  - cbn [DefaultFunc callDefaultFunc]. rewrite multiEnv_presentEnv.
    destruct (presentEnv env ["KUBE_CONFIG"; "KUBECONFIG"]) as [t|] eqn:Ep.
    + apply presentEnv_nonempty in Ep. exists t. split; [|assumption].
      destruct t; [contradiction | reflexivity].
    + exists "~/.kube/config". split; [reflexivity | discriminate].
Qed.

(** X5: in every configuration and environment the lookup of [config_path]
    returns a non-empty path and reports it as present, so whenever
    [getK8sConfig] consults the kubeconfig file it does call
    [homedir.Expand]: the test of [ok] on that path never fails. *)
Theorem config_path_always_present d env :
  exists path, k8sGetOk d env "config_path" = Return (VString path, true) /\ path <> "".
Proof. apply config_path_present. Qed.

(** An address under the nested block that names no field of its schema
    is outside the provider schema. *)
Lemma addressTypes_unknown key :
  kubernetesResource !! key = None -> addressTypes !! (k8sPrefix +:+ key) = None.
Proof.
  intros H.
  assert (Hout : k8sPrefix +:+ key ∉
            (topLevelTypes ++
               (prod_map (String.append k8sPrefix) Type_ <$> kubernetesFields))%list.*1).
  { revert H. simpl. intros H Hin. cbv [k8sPrefix String.append] in Hin.
    repeat (apply elem_of_cons in Hin as [Hin|Hin];
            [first [ discriminate Hin
                   | injection Hin as ->; vm_compute in H; discriminate H ] |]).
    apply elem_of_nil in Hin. contradiction. }
  apply not_elem_of_list_to_map_1 in Hout. exact Hout.
Qed.

#[local] Transparent k8sGetOk GetOk.

(** X7: looking up a key that [kubernetesResource] does not declare panics:
    the accessor reports the address as not set, so the code reads
    [DefaultFunc] through the nil schema the map lookup returned. *)
Theorem unknown_field_panics d env key :
  kubernetesResource !! key = None ->
  k8sGetOk d env key = Panic NilPointerDereference.
Proof.
  intros H. pose proof (addressTypes_unknown key H) as Ha.
  unfold k8sGetOk, GetOk, GetOkExists, readField. rewrite Ha, H. reflexivity.
Qed.

#[local] Opaque k8sGetOk GetOk.

Lemma unknown_field_panics_witness :
  k8sGetOk blockContext ∅ "kube_host" = Panic NilPointerDereference.
Proof.
  apply (unknown_field_panics blockContext ∅ "kube_host"). vm_compute. reflexivity.
Defined.

(** ** Provider configuration, case by case *)

#[local] Transparent GetOk Get.

Lemma GetOk_Get d key v ok : GetOk d key = (v, ok) -> Get d key = v.
Proof.
  unfold GetOk, Get. destruct (readField d key) as [w e]. now intros [= -> _].
Qed.

Lemma GetOk_true_nonempty d key ok : GetOk d key = (VString "", ok) -> ok = false.
Proof.
  unfold GetOk. destruct (readField d key) as [v e].
  intros [= -> <-]. simpl. apply andb_false_r.
Qed.

#[local] Opaque GetOk Get.

(** The [Meta] that [buildSettings] hands to [getK8sConfig], and what
    [providerConfigure] makes of the result. *)
Lemma providerConfigure_eq Expand env d tv :
  exists s h,
    helmSettings d = Return s /\ Get d "helm_driver" = VString h /\
    forall st,
      providerConfigure Expand env d tv st =
      match kubeconfigPart Expand env (length (heap st)) d
              (mkState (trace st) (heap st ++ [NewConfigFlags true])) with
      | Return (Some err, st2) => Return ((Some (mkMeta (Some d) (Some s) None h false), None), st2)
      | Return (None, st2) =>
          match localPart env (length (heap st)) d st2 with
          | Return (_, st3) =>
              if existsb (present d env) credentialFields
              then Panic (if insecureFromEnvFirst d env
                          then InterfaceConversion else NilPointerDereference)
              else Return ((Some (mkMeta (Some d) (Some s) (Some (length (heap st))) h false),
                            None), st3)
          | Panic p => Panic p
          | Blocked => Blocked
          end
      | Panic p => Panic p
      | Blocked => Blocked
      end.
Proof.
  destruct (helmSettings_Get d) as (s & Hs & _).
  destruct (GetOk_string d "helm_driver") as (h & okh & Eh & Hz); [vm_compute; reflexivity|].
  exists s, h. split; [assumption|]. split; [now apply GetOk_Get in Eh|].
  assert (Hm : (if okh then withHelmDriver h (newMeta d) else newMeta d) =
               mkMeta (Some d) None None h false).
  { destruct okh; [reflexivity|].
    pose proof (GetOk_Get _ _ _ _ Eh) as Hg. rewrite (Hz eq_refl) in Hg.
    injection Hg as <-. reflexivity. }
  intros st. unfold providerConfigure, buildSettings, mbind, M_bind, lift, mret, M_ret.
  rewrite Hs, Eh.
  destruct okh; simpl; [|injection Hm as <-];
    rewrite getK8sConfig_parts;
    unfold getK8sConfigParts, alloc, mbind, M_bind, mret, M_ret;
    (destruct (kubeconfigPart _ _ _ _ _) as [[[err|] st2]|p|]; try reflexivity);
    (destruct (localPart _ _ _ _) as [[[] st3]|p|]; try reflexivity);
    rewrite (credentialPart_nil env _ d st3) by reflexivity;
    unfold credentialFields, existsb;
    destruct (present d env "username" || _); reflexivity.
Qed.


(** A boolean field whose default reads an environment variable: a
    boolean, or the variable as a string when the data has no value for the
    field and the variable is not empty. *)
Lemma bool_field_read d env key k dv :
  kubernetesResource !! key = Some (envField TypeBool k (VBool dv)) ->
  (exists b ok, k8sGetOk d env key = Return (VBool b, ok)) \/
  (rd_bools d !! (k8sPrefix +:+ key) = None /\ Getenv env k <> "" /\
   k8sGetOk d env key = Return (VString (Getenv env k), true)).
Proof.
  intros H. rewrite (k8sGetOk_field _ _ _ _ H).
  pose proof (addressTypes_nested _ _ H) as Ha. simpl in Ha.
  unfold setValue, blockValue. rewrite Ha.
  destruct (rd_bools d !! (k8sPrefix +:+ key)) as [b|]; simpl.
  - left. eauto.
  - destruct (String.eqb_spec (Getenv env k) "") as [E|E]; simpl.
    + left. eauto.
    + right. split; [reflexivity|]. split; [assumption|].
      destruct (Getenv env k); [contradiction | reflexivity].
Qed.

(** The kubeconfig part, by the values of [in_cluster] and
    [load_config_file] and the outcome of the expansion. *)
Lemma kubeconfigPart_eq Expand env cf d st path :
  k8sGetOk d env "config_path" = Return (VString path, true) ->
  kubeconfigPart Expand env cf d st =
  match k8sGet d env "in_cluster" with
  | Return (VBool true) => Return (None, st)
  | Return (VBool false) =>
      match k8sGet d env "load_config_file" with
      | Return (VBool false) => Return (None, st)
      | Return (VBool true) =>
          match Expand path with
          | (_, Some err) =>
              Return (Some err,
                      mkState (trace st ++ [EvDebug ("[DEBUG] Error expanding path " +:+ err)])%list
                              (heap st))
          | (expanded, None) =>
              Return (None,
                      mkState (trace st) (alter (setKubeConfig (Some expanded)) cf (heap st)))
          end
      | Return _ => Panic InterfaceConversion
      | Panic p => Panic p
      | Blocked => Blocked
      end
  | Return _ => Panic InterfaceConversion
  | Panic p => Panic p
  | Blocked => Blocked
  end.
Proof.
  intros Hp.
  unfold kubeconfigPart, mbind, M_bind, lift, outcome_bind, mret, M_ret. rewrite Hp.
  generalize (k8sGet d env "in_cluster") (k8sGet d env "load_config_file").
  intros o1 o2.
  destruct o1 as [[|[|]|s]|p|]; simpl; try reflexivity.
  destruct o2 as [[|[|]|s]|p|]; simpl; try reflexivity.
  destruct (Expand path) as [expanded [err|]]; reflexivity.
Qed.

(** The exact result of the two assignments to the local [cf], when [cf] is
    the last object of the heap. *)
Lemma localPart_last env d tr h c :
  exists ctx ns,
    k8sGet d env "config_context" = Return (VString ctx) /\
    Get d "helm_namespace" = VString ns /\
    localPart env (length h) d (mkState tr (h ++ [c])) =
    Return (tt, mkState tr (h ++ [(if negb (String.eqb ns "")
                                    then setNamespace (Some ns) else id)
                                     ((if negb (String.eqb ctx "")
                                       then setContext (Some ctx) else id) c)])).
Proof.
  destruct (k8sGetOk_string_ok d env "config_context"
              (envField TypeString "KUBE_CTX" (VString ""))) as (ctx & E);
    [vm_compute; reflexivity | reflexivity |].
  destruct (GetOk_string d "helm_namespace") as (ns & okn & En & Hz); [vm_compute; reflexivity|].
  pose proof (GetOk_Get _ _ _ _ En) as Hg.
  assert (Hok : okn = negb (String.eqb ns "")).
  { destruct okn.
    - destruct ns; [|reflexivity]. now apply GetOk_true_nonempty in En.
    - rewrite (Hz eq_refl) in Hg. injection Hg as <-. reflexivity. }
  exists ctx, ns. split; [rewrite k8sGet_unfold, E; reflexivity|]. split; [assumption|].
  unfold localPart, mbind, M_bind, lift, mret, M_ret, store.
  rewrite E, En, Hok.
  destruct (negb (ctx =? "")), (negb (ns =? "")); simpl;
    rewrite ?alter_app_r_alt by (simpl; rewrite ?length_app; simpl; lia);
    rewrite ?length_app; simpl;
    repeat (replace (length h + 1 - 1 - length h) with 0 by lia);
    rewrite ?Nat.sub_diag; reflexivity.
Qed.

#[local] Opaque kubeconfigPart localPart.

Lemma k8sGet_load_config_file d env :
  (exists b, k8sGet d env "load_config_file" = Return (VBool b)) \/
  (rd_bools d !! "kubernetes.0.load_config_file" = None /\
   Getenv env "KUBE_LOAD_CONFIG_FILE" <> "" /\
   exists s, k8sGet d env "load_config_file" = Return (VString s)).
Proof.
  rewrite k8sGet_unfold.
  destruct (bool_field_read d env "load_config_file" "KUBE_LOAD_CONFIG_FILE" true)
    as [(b & ok & ->)|(Hn & He & ->)]; [vm_compute; reflexivity | left | right]; simpl; eauto.
Qed.

(** ** C6: an environment variable for a nested boolean *)

(** C6 fails for the nested boolean field [load_config_file].  When the
    data holds no value for it and [KUBE_LOAD_CONFIG_FILE] is set, the
    lookup does not resolve to the boolean the variable stands for: the
    default function returns the variable as the string it is, [k8sGetOk]
    passes that string on, and [getK8sConfig] asserts the value to be a
    [bool].  So with [in_cluster] false provider configuration panics on the
    failed type assertion, whatever the variable holds. *)
Theorem env_boolean_unresolved Expand env d tv st s :
  k8sGet d env "in_cluster" = Return (VBool false) ->
  rd_bools d !! "kubernetes.0.load_config_file" = None ->
  presentEnv env ["KUBE_LOAD_CONFIG_FILE"] = Some s ->
  k8sGetOk d env "load_config_file" = Return (VString s, true) /\
  providerConfigure Expand env d tv st = Panic InterfaceConversion.
Proof.
  intros Hic Hn Hs.
  assert (Hk : k8sGetOk d env "load_config_file" = Return (VString s, true)).
  { rewrite (k8sGetOk_field d env "load_config_file"
               (envField TypeBool "KUBE_LOAD_CONFIG_FILE" (VBool true)))
      by (vm_compute; reflexivity).
    assert (Hset : setValue d (k8sPrefix +:+ "load_config_file") = None).
    { unfold setValue, blockValue.
      replace (addressTypes !! (k8sPrefix +:+ "load_config_file")) with (Some TypeBool)
        by (vm_compute; reflexivity).
      cbv [k8sPrefix String.append]. rewrite Hn. reflexivity. }
    rewrite Hset. simpl DefaultFunc. cbv beta iota zeta.
    rewrite callDefaultFunc_precedence. simpl envNames. rewrite Hs. simpl precedence.
    assert (Hne : isZero (VString s) = false).
    { simpl in Hs. destruct (env !! "KUBE_LOAD_CONFIG_FILE") as [[|c r]|];
        try discriminate Hs. injection Hs as <-. reflexivity. }
    rewrite Hne. reflexivity. }
  split; [exact Hk|].
  destruct (providerConfigure_eq Expand env d tv) as (se & h & _ & _ & ->).
  destruct (config_path_present d env) as (path & Hpath & _).
  rewrite (kubeconfigPart_eq _ _ _ _ _ path Hpath).
  rewrite Hic, k8sGet_unfold, Hk. reflexivity.
Qed.

Lemma env_boolean_unresolved_witness :
  exists d,
    schemaData {[ "KUBE_LOAD_CONFIG_FILE" := "false" ]} opFields blockEmpty = Some d /\
    k8sGetOk d {[ "KUBE_LOAD_CONFIG_FILE" := "false" ]} "load_config_file" =
      Return (VString "false", true) /\
    providerConfigure expandOp {[ "KUBE_LOAD_CONFIG_FILE" := "false" ]} d "0.12" st0 =
      Panic InterfaceConversion.
Proof.
  set (env := ({[ "KUBE_LOAD_CONFIG_FILE" := "false" ]} : gmap string string)).
  pose (d := default blockEmpty (schemaData env opFields blockEmpty)).
  assert (Hd : schemaData env opFields blockEmpty = Some d) by (vm_compute; reflexivity).
  exists d. split; [exact Hd|].
  apply (env_boolean_unresolved expandOp env d "0.12" st0 "false");
    vm_compute; reflexivity.
Defined.

(** ** The causes of a panic *)

(** X8: the two panics of provider configuration have these causes only: a
    nil-pointer dereference means that one of the eight fields assigned
    through [m.ConfigFlags] is present; a failed type assertion means that
    [load_config_file] or [insecure] has no value in the configuration data
    while its environment variable, [KUBE_LOAD_CONFIG_FILE] or
    [KUBE_INSECURE], is set.  Provider configuration raises no other
    panic. *)
Theorem panic_causes Expand env d tv st p :
  providerConfigure Expand env d tv st = Panic p ->
  match p with
  | NilPointerDereference =>
      exists key, key ∈ credentialFields /\ present d env key = true
  | InterfaceConversion =>
      (rd_bools d !! "kubernetes.0.load_config_file" = None /\
       Getenv env "KUBE_LOAD_CONFIG_FILE" <> "") \/
      (rd_bools d !! "kubernetes.0.insecure" = None /\
       Getenv env "KUBE_INSECURE" <> "")
  | Raised _ => False
  end.
Proof.
  destruct (providerConfigure_eq Expand env d tv) as (s & h & _ & _ & ->).
  destruct (config_path_present d env) as (path & Hpath & _).
  rewrite (kubeconfigPart_eq _ _ _ _ _ path Hpath).
  destruct (k8sGet_in_cluster d env) as [ic ->].
  assert (Hcred : forall st2,
    match localPart env (length (heap st)) d st2 with
    | Return (_, st3) =>
        if existsb (present d env) credentialFields
        then Panic (if insecureFromEnvFirst d env
                    then InterfaceConversion else NilPointerDereference)
        else Return ((Some (mkMeta (Some d) (Some s) (Some (length (heap st))) h false),
                      @None error), st3)
    | Panic p0 => Panic p0
    | Blocked => Blocked
    end = Panic p ->
    match p with
    | NilPointerDereference =>
        exists key, key ∈ credentialFields /\ present d env key = true
    | InterfaceConversion =>
        (rd_bools d !! "kubernetes.0.load_config_file" = None /\
         Getenv env "KUBE_LOAD_CONFIG_FILE" <> "") \/
        (rd_bools d !! "kubernetes.0.insecure" = None /\
         Getenv env "KUBE_INSECURE" <> "")
    | Raised _ => False
    end).
  { intros st2. destruct (localPart_keeps env (length (heap st)) d st2) as (st3 & -> & _).
    destruct (existsb (present d env) credentialFields) eqn:Ep; [|discriminate].
    destruct (insecureFromEnvFirst d env) eqn:Ei; intros [= <-].
    - right. unfold insecureFromEnvFirst in Ei.
      destruct (bool_field_read d env "insecure" "KUBE_INSECURE" false)
        as [(b & ok & E)|(Hn & He & _)]; [vm_compute; reflexivity | | auto].
      rewrite E in Ei. rewrite andb_false_r in Ei. discriminate Ei.
    - apply existsb_exists in Ep as (key & Hin & Hk).
      exists key. split; [now apply list_elem_of_In | assumption]. }
  destruct ic; [apply Hcred|].
  destruct (k8sGet_load_config_file d env) as [[b ->]|(Hn & He & sv & ->)].
  - destruct b; [|apply Hcred].
    destruct (Expand path) as [expanded [err|]]; [discriminate | apply Hcred].
  - intros [= <-]. left. auto.
Qed.

Lemma panic_causes_witness :
  providerConfigure expandOp {[ "KUBE_INSECURE" := "true" ]} blockEmpty "0.12" st0 =
    Panic InterfaceConversion /\
  ((rd_bools blockEmpty !! "kubernetes.0.load_config_file" = None /\
    Getenv {[ "KUBE_INSECURE" := "true" ]} "KUBE_LOAD_CONFIG_FILE" <> "") \/
   (rd_bools blockEmpty !! "kubernetes.0.insecure" = None /\
    Getenv {[ "KUBE_INSECURE" := "true" ]} "KUBE_INSECURE" <> "")).
Proof.
  assert (H : providerConfigure expandOp {[ "KUBE_INSECURE" := "true" ]} blockEmpty "0.12" st0 =
              Panic InterfaceConversion) by (vm_compute; reflexivity).
  split; [exact H|].
  exact (panic_causes expandOp {[ "KUBE_INSECURE" := "true" ]} blockEmpty "0.12" st0 _ H).
Defined.

(** X2: for every configuration, environment and [homedir.Expand], provider
    configuration never returns an error and never returns without a [Meta]:
    it panics, or it returns a [Meta] and a nil error.  The returned [Meta]
    either points to the object allocated for this call, and then nothing was
    logged, or has a nil [ConfigFlags], and then exactly one line was logged,
    the expansion error. *)
Theorem configure_outcomes Expand env d tv st :
  match providerConfigure Expand env d tv st with
  | Panic _ => True
  | Blocked => False
  | Return ((Some m, None), st') =>
      (ConfigFlags_ m = Some (length (heap st)) /\ trace st' = trace st) \/
      (ConfigFlags_ m = None /\
       exists err,
         trace st' = (trace st ++ [EvDebug ("[DEBUG] Error expanding path " +:+ err)])%list)
  | Return _ => False
  end.
Proof.
  destruct (providerConfigure_eq Expand env d tv) as (s & h & _ & _ & ->).
  destruct (config_path_present d env) as (path & Hpath & _).
  rewrite (kubeconfigPart_eq _ _ _ _ _ path Hpath).
  assert (Hlocal : forall st2, trace st2 = trace st ->
    match
      match localPart env (length (heap st)) d st2 with
      | Return (_, st3) =>
          if existsb (present d env) credentialFields
          then Panic (if insecureFromEnvFirst d env
                      then InterfaceConversion else NilPointerDereference)
          else Return ((Some (mkMeta (Some d) (Some s) (Some (length (heap st))) h false),
                        @None error), st3)
      | Panic p0 => Panic p0
      | Blocked => Blocked
      end
    with
    | Panic _ => True
    | Blocked => False
    | Return ((Some m, None), st') =>
        (ConfigFlags_ m = Some (length (heap st)) /\ trace st' = trace st) \/
        (ConfigFlags_ m = None /\
         exists err,
           trace st' = (trace st ++ [EvDebug ("[DEBUG] Error expanding path " +:+ err)])%list)
    | Return _ => False
    end).
  { intros st2 Ht. destruct (localPart_keeps env (length (heap st)) d st2) as (st3 & -> & Ht3 & _).
    destruct (existsb (present d env) credentialFields); [exact I|].
    left. split; [reflexivity | congruence]. }
  destruct (k8sGet_in_cluster d env) as [ic ->].
  destruct ic; [now apply Hlocal|].
  destruct (k8sGet_load_config_file d env) as [[b ->]|(_ & _ & sv & ->)]; [|exact I].
  destruct b; [|now apply Hlocal].
  destruct (Expand path) as [expanded [err|]]; [|now apply Hlocal].
  right. split; [reflexivity|]. exists err. reflexivity.
Qed.

(** X3: a [Meta] returned by provider configuration keeps the data it was
    configured from, has a free mutex, holds the settings built from the
    top-level attributes, and its [HelmDriver] is the string read at
    [helm_driver]; the error returned with it is nil. *)
Theorem configure_keeps_settings Expand env d tv st om e st' :
  providerConfigure Expand env d tv st = Return ((om, e), st') ->
  e = None /\
  exists m s,
    om = Some m /\ data m = Some d /\ Mutex m = false /\
    helmSettings d = Return s /\ Settings m = Some s /\
    Get d "helm_driver" = VString (HelmDriver m).
Proof.
  destruct (providerConfigure_eq Expand env d tv) as (s & h & Hs & Hh & ->).
  generalize (existsb (present d env) credentialFields). intros b.
  destruct (kubeconfigPart _ _ _ _ _) as [[[err|] st2]|p|].
  - intros [= <- <- _]. split; [reflexivity|]. eexists _, s. repeat split; assumption.
  - destruct (localPart _ _ _ _) as [[[] st3]|p|].
    + destruct b; [intros H; discriminate H|].
      intros [= <- <- _]. split; [reflexivity|]. eexists _, s. repeat split; assumption.
    + intros H; discriminate H.
    + intros H; discriminate H.
  - intros H; discriminate H.
  - intros H; discriminate H.
Qed.

Lemma configure_keeps_settings_witness :
  exists om e st',
    providerConfigure expandOp ∅ blockContext "0.12" st0 = Return ((om, e), st') /\
    e = None /\
    exists m s,
      om = Some m /\ data m = Some blockContext /\ Mutex m = false /\
      helmSettings blockContext = Return s /\ Settings m = Some s /\
      Get blockContext "helm_driver" = VString (HelmDriver m).
Proof.
  destruct (providerConfigure expandOp ∅ blockContext "0.12" st0) as [[[om e] st']|p|] eqn:H;
    try (vm_compute in H; discriminate H).
  exists om, e, st'. split; [reflexivity|].
  exact (configure_keeps_settings expandOp ∅ blockContext "0.12" st0 om e st' H).
Defined.

(** X4: when the kubeconfig file is not consulted, because [in_cluster]
    reads as true or [load_config_file] does not read as true, provider
    configuration does not depend on [homedir.Expand] at all: the path is
    never expanded, so no expansion error can occur. *)
Theorem kubeconfig_not_consulted Expand1 Expand2 env d tv st :
  consultsKubeconfig d env = false ->
  providerConfigure Expand1 env d tv st = providerConfigure Expand2 env d tv st.
Proof.
  intros Hc.
  destruct (providerConfigure_eq Expand1 env d tv) as (s1 & h1 & Hs1 & Hh1 & ->).
  destruct (providerConfigure_eq Expand2 env d tv) as (s2 & h2 & Hs2 & Hh2 & ->).
  assert (s1 = s2) as <- by congruence.
  assert (h1 = h2) as <- by congruence.
  destruct (config_path_present d env) as (path & Hpath & _).
  rewrite (kubeconfigPart_eq Expand1 _ _ _ _ path Hpath),
          (kubeconfigPart_eq Expand2 _ _ _ _ path Hpath).
  unfold consultsKubeconfig in Hc. revert Hc.
  generalize (k8sGet d env "in_cluster") (k8sGet d env "load_config_file").
  intros o1 o2 Hc.
  destruct o1 as [[|[|]|v]|p|]; try reflexivity.
  destruct o2 as [[|[|]|v]|p|]; try reflexivity. discriminate.
Qed.

Lemma kubeconfig_not_consulted_witness :
  consultsKubeconfig blockInCluster ∅ = false /\
  providerConfigure expandOp ∅ blockInCluster "0.12" st0 =
  providerConfigure (fun _ => ("", Some "no home directory")) ∅ blockInCluster "0.12" st0.
Proof.
  assert (Hc : consultsKubeconfig blockInCluster ∅ = false) by (vm_compute; reflexivity).
  split; [exact Hc|].
  exact (kubeconfig_not_consulted expandOp (fun _ => ("", Some "no home directory"))
           ∅ blockInCluster "0.12" st0 Hc).
Defined.

(** X1: when the kubeconfig part resolves and none of the eight fields
    assigned through [m.ConfigFlags] is present, provider configuration
    returns a [Meta] pointing to one new object and logs nothing.  In that
    object [KubeConfig] is the expanded kubeconfig path when the file is
    consulted and the empty string otherwise, [Context] is the value of
    [config_context], [Namespace] is the value of [helm_namespace], and every
    other field is as [NewConfigFlags] left it. *)
Theorem configure_result Expand env d tv st :
  kubeconfigResolves Expand d env = true ->
  (forall key, key ∈ credentialFields -> present d env key = false) ->
  exists m path ctx ns,
    k8sGetOk d env "config_path" = Return (VString path, true) /\
    k8sGet d env "config_context" = Return (VString ctx) /\
    Get d "helm_namespace" = VString ns /\
    providerConfigure Expand env d tv st =
    Return ((Some m, None),
            mkState (trace st)
              (heap st ++
               [setNamespace (Some ns)
                  (setContext (Some ctx)
                     (setKubeConfig
                        (Some (if consultsKubeconfig d env then fst (Expand path) else ""))
                        (NewConfigFlags true)))])) /\
    ConfigFlags_ m = Some (length (heap st)).
Proof.
  intros Hk Hnone.
  assert (Hp : existsb (present d env) credentialFields = false).
  { destruct (existsb (present d env) credentialFields) eqn:E; [|reflexivity].
    apply existsb_exists in E as (key & Hin & Hkey).
    apply list_elem_of_In in Hin. rewrite (Hnone key Hin) in Hkey. discriminate Hkey. }
  destruct (providerConfigure_eq Expand env d tv) as (s & h & _ & _ & E).
  destruct (config_path_present d env) as (path & Hpath & _).
  assert (Hflags : forall c ctx ns,
            Context c = Some "" -> Namespace c = Some "" ->
            (if negb (String.eqb ns "") then setNamespace (Some ns) else id)
              ((if negb (String.eqb ctx "") then setContext (Some ctx) else id) c) =
            setNamespace (Some ns) (setContext (Some ctx) c)).
  { intros [] ctx ns Hc Hn. simpl in Hc, Hn. subst.
    destruct ctx, ns; reflexivity. }
  assert (Hend : forall kube,
    kubeconfigPart Expand env (length (heap st)) d
      (mkState (trace st) (heap st ++ [NewConfigFlags true])) =
    Return (None, mkState (trace st) (heap st ++ [setKubeConfig (Some kube) (NewConfigFlags true)])) ->
    exists m ctx ns,
      k8sGet d env "config_context" = Return (VString ctx) /\
      Get d "helm_namespace" = VString ns /\
      providerConfigure Expand env d tv st =
      Return ((Some m, None),
              mkState (trace st)
                (heap st ++
                 [setNamespace (Some ns)
                    (setContext (Some ctx) (setKubeConfig (Some kube) (NewConfigFlags true)))])) /\
      ConfigFlags_ m = Some (length (heap st))).
  { intros kube Hkube. rewrite E, Hkube.
    destruct (localPart_last env d (trace st) (heap st)
                (setKubeConfig (Some kube) (NewConfigFlags true)))
      as (ctx & ns & Hctx & Hns & ->).
    rewrite Hp, Hflags by reflexivity.
    eexists _, ctx, ns. repeat split; assumption || reflexivity. }
  revert Hk Hend. unfold kubeconfigResolves, consultsKubeconfig.
  rewrite (kubeconfigPart_eq _ _ _ _ _ path Hpath), Hpath.
  generalize (k8sGet d env "in_cluster") (k8sGet d env "load_config_file").
  intros o1 o2 Hk Hend.
  destruct o1 as [[|[|]|v]|p|]; try discriminate Hk.
  - destruct (Hend "" eq_refl) as (m & ctx & ns & H1 & H2 & H3 & H4).
    exists m, path, ctx, ns. repeat split; first [reflexivity | assumption].
  - destruct o2 as [[|[|]|v]|p|]; try discriminate Hk.
    + destruct (Expand path) as [expanded [err|]] eqn:He; [discriminate Hk|].
      assert (Hst : Return (@None error,
                            mkState (trace st)
                              (alter (setKubeConfig (Some expanded)) (length (heap st))
                                 (heap st ++ [NewConfigFlags true])%list)) =
                    Return (None,
                            mkState (trace st)
                              (heap st ++
                               [setKubeConfig (Some expanded) (NewConfigFlags true)])%list)).
      { rewrite alter_app_r_alt by lia. now rewrite Nat.sub_diag. }
      destruct (Hend expanded Hst) as (m & ctx & ns & H1 & H2 & H3 & H4).
      exists m, path, ctx, ns. rewrite He.
      repeat split; first [reflexivity | assumption].
    + destruct (Hend "" eq_refl) as (m & ctx & ns & H1 & H2 & H3 & H4).
      exists m, path, ctx, ns. repeat split; first [reflexivity | assumption].
Qed.

Lemma configure_result_witness :
  exists m,
    providerConfigure expandOp ∅ blockContext "0.12" st0 =
    Return ((Some m, None),
            mkState []
              [setNamespace (Some "ops")
                 (setContext (Some "staging")
                    (setKubeConfig (Some "/home/op/.kube/config") (NewConfigFlags true)))]) /\
    ConfigFlags_ m = Some 0.
Proof.
  destruct (configure_result expandOp ∅ blockContext "0.12" st0)
    as (m & path & ctx & ns & Hpath & Hctx & Hns & H & Hm).
  - vm_compute. reflexivity.
  - intros key Hin. unfold credentialFields in Hin.
    repeat (apply elem_of_cons in Hin as [->|Hin]; [vm_compute; reflexivity|]).
    apply elem_of_nil in Hin. contradiction.
  - exists m. split; [|exact Hm]. rewrite H.
    assert (Ep : path = "~/.kube/config")
      by (apply (f_equal (fun o => match o with Return (VString p, _) => p | _ => "" end)) in Hpath;
          vm_compute in Hpath; now symmetry).
    assert (Ec : ctx = "staging")
      by (apply (f_equal (fun o => match o with Return (VString p) => p | _ => "" end)) in Hctx;
          vm_compute in Hctx; now symmetry).
    assert (En : ns = "ops")
      by (apply (f_equal (fun v => match v with VString p => p | _ => "" end)) in Hns;
          vm_compute in Hns; now symmetry).
    subst. vm_compute. reflexivity.
Defined.

(** X9: in every configuration and environment, the object a returned
    [Meta] points to holds no credential: [Username] and [Password] are nil,
    the token, the certificate fields and the cluster name are empty, and
    [Insecure] is false, whatever the configuration and the environment
    say. *)
Theorem no_credential_stored Expand env d tv st m e st' a cf :
  providerConfigure Expand env d tv st = Return ((Some m, e), st') ->
  ConfigFlags_ m = Some a ->
  heap st' !! a = Some cf ->
  Username cf = None /\ Password cf = None /\ BearerToken cf = Some "" /\
  Insecure cf = Some false /\ CertFile cf = Some "" /\ KeyFile cf = Some "" /\
  CAFile cf = Some "" /\ ClusterName cf = Some "".
Proof.
  intros H Ha Hcf.
  pose proof (providerConfigure_credentials_unset _ _ _ _ _ _ _ _ H) as Hc.
  rewrite Ha in Hc. destruct Hc as (cf' & Hcf' & Hcred).
  rewrite Hcf in Hcf'. injection Hcf' as <-.
  unfold credentialsOf in Hcred. simpl in Hcred.
  injection Hcred as -> -> -> -> -> -> -> ->. repeat split.
Qed.

Lemma no_credential_stored_witness :
  exists m e st' cf,
    providerConfigure expandOp ∅ blockContext "0.12" st0 = Return ((Some m, e), st') /\
    ConfigFlags_ m = Some 0 /\
    heap st' !! 0 = Some cf /\
    Username cf = None /\ Password cf = None /\ BearerToken cf = Some "" /\
    Insecure cf = Some false /\ CertFile cf = Some "" /\ KeyFile cf = Some "" /\
    CAFile cf = Some "" /\ ClusterName cf = Some "".
Proof.
  destruct (providerConfigure expandOp ∅ blockContext "0.12" st0)
    as [[[[m|] e] st']|p|] eqn:H; try (vm_compute in H; discriminate H).
  assert (Ha : ConfigFlags_ m = Some 0) by (vm_compute in H; now injection H as <- _ _).
  destruct (heap st' !! 0) as [cf|] eqn:Hcf;
    [|vm_compute in H; injection H as _ _ <-; discriminate Hcf].
  exists m, e, st', cf. split; [reflexivity|]. split; [exact Ha|]. split; [exact Hcf|].
  exact (no_credential_stored expandOp ∅ blockContext "0.12" st0 m e st' 0 cf H Ha Hcf).
Defined.

(** ** The factory, call after call *)

(** [GetHelmConfiguration] on a free mutex, in one equation. *)
Lemma GetHelmConfiguration_eq (Configuration : Type) (zero : Configuration)
    (Init : list event -> Configuration -> option ConfigFlags -> string -> string ->
            outcome (Configuration * option error))
    (m : Meta) (namespace : string) (st : State) :
  Mutex m = false ->
  GetHelmConfiguration Configuration zero Init m namespace st =
  match Init (trace st ++ [EvLock])%list zero
          (ConfigFlags_ m ≫= (fun a => heap st !! a)) namespace (HelmDriver m) with
  | Return r =>
      Return ((m, match snd r with
                  | Some err => (None, Some err)
                  | None => (Some (fst r), None)
                  end),
              mkState (trace st ++
                       [EvLock;
                        EvInit (ConfigFlags_ m ≫= (fun a => heap st !! a)) namespace
                          (HelmDriver m);
                        EvUnlock])%list
                      (heap st))
  | Panic p => Panic p
  | Blocked => Blocked
  end.
Proof.
  intros Hm. destruct m as [dt se cf hd mu]. simpl in Hm. subst mu.
  unfold GetHelmConfiguration, Lock, Unlock, callInit, mbind, M_bind, mret, M_ret.
  simpl.
  destruct (Init _ _ _ _ _) as [[c [err|]]|p|]; simpl; rewrite <- ?app_assoc; reflexivity.
Qed.

(** X10: two calls in a row on a [Meta] whose mutex is free.  When [Init]
    returns in the first, with an error or without, the first call returns
    and the second is not kept waiting: the mutex is released on the error
    path too.  The second call takes the mutex again and calls [Init]
    again, on a fresh zero configuration and with the same [ConfigFlags]
    object and driver; nothing of the first result is reused, and it ends
    as that call of [Init] does.  The [Meta] and the heap are unchanged. *)
Theorem successive_calls_reinitialise (Configuration : Type) (zero : Configuration)
    (Init : list event -> Configuration -> option ConfigFlags -> string -> string ->
            outcome (Configuration * option error))
    (m : Meta) (ns1 ns2 : string) (st : State) (r1 : Configuration * option error) :
  Mutex m = false ->
  let getter := ConfigFlags_ m ≫= (fun a => heap st !! a) in
  let first := [EvLock; EvInit getter ns1 (HelmDriver m); EvUnlock] in
  Init (trace st ++ [EvLock])%list zero getter ns1 (HelmDriver m) = Return r1 ->
  exists res1 st1,
    GetHelmConfiguration Configuration zero Init m ns1 st = Return ((m, res1), st1) /\
    GetHelmConfiguration Configuration zero Init m ns2 st1 =
    match Init (trace st ++ first ++ [EvLock])%list zero getter ns2 (HelmDriver m) with
    | Return r2 =>
        Return ((m, match snd r2 with
                    | Some err => (None, Some err)
                    | None => (Some (fst r2), None)
                    end),
                mkState (trace st ++ first ++
                         [EvLock; EvInit getter ns2 (HelmDriver m); EvUnlock])%list
                        (heap st))
    | Panic p => Panic p
    | Blocked => Blocked
    end.
Proof.
  intros Hm getter first H1. subst getter first.
  eexists _, _. split.
  - rewrite (GetHelmConfiguration_eq _ _ _ _ _ _ Hm), H1. reflexivity.
  - rewrite (GetHelmConfiguration_eq _ _ _ _ _ _ Hm). simpl.
    rewrite <- !app_assoc. simpl. reflexivity.
Qed.

Lemma successive_calls_reinitialise_witness :
  exists res1 st1,
    GetHelmConfiguration string "" initByDriver metaReady "ops" stReady =
      Return ((metaReady, res1), st1) /\
    GetHelmConfiguration string "" initByDriver metaReady "dev" st1 =
      Return ((metaReady, (Some "secret", None)),
              mkState [EvLock; EvInit (Some (NewConfigFlags true)) "ops" "secret"; EvUnlock;
                       EvLock; EvInit (Some (NewConfigFlags true)) "dev" "secret"; EvUnlock]
                      [NewConfigFlags true]).
Proof.
  exact (successive_calls_reinitialise string "" initByDriver metaReady "ops" "dev" stReady
           ("secret", None) eq_refl eq_refl).
Defined.

(** X11: what [GetHelmConfiguration] does on a [Meta] returned by provider
    configuration.  It never waits at the mutex; it calls [Init] once, with
    the namespace of the caller, with the string read at [helm_driver] as
    driver, and with the object [m.ConfigFlags] points to; and it ends as
    that call of [Init] does, leaving the [Meta] and the heap as they were
    when [Init] returns.  The getter is nil exactly when [m.ConfigFlags] is:
    on the [Meta] left by a swallowed expansion error [Init] is called with
    a nil getter, so that a panic of [Init] on nil is a panic of the
    call. *)
Theorem configured_meta_usable Expand env d tv st m e st'
    (Configuration : Type) (zero : Configuration)
    (Init : list event -> Configuration -> option ConfigFlags -> string -> string ->
            outcome (Configuration * option error))
    (namespace : string) :
  providerConfigure Expand env d tv st = Return ((Some m, e), st') ->
  exists driver,
    Get d "helm_driver" = VString driver /\
    let getter := ConfigFlags_ m ≫= (fun a => heap st' !! a) in
    (getter = None <-> ConfigFlags_ m = None) /\
    GetHelmConfiguration Configuration zero Init m namespace st' =
    match Init (trace st' ++ [EvLock])%list zero getter namespace driver with
    | Return r =>
        Return ((m, match snd r with
                    | Some err => (None, Some err)
                    | None => (Some (fst r), None)
                    end),
                mkState (trace st' ++ [EvLock; EvInit getter namespace driver; EvUnlock])%list
                        (heap st'))
    | Panic p => Panic p
    | Blocked => Blocked
    end.
Proof.
  intros H.
  assert (Hm : Mutex m = false /\ Get d "helm_driver" = VString (HelmDriver m)).
  { revert H. destruct (providerConfigure_eq Expand env d tv) as (s & h & Hs & Hh & ->).
    generalize (existsb (present d env) credentialFields). intros b.
    destruct (kubeconfigPart _ _ _ _ _) as [[[err|] st2]|p|].
    - intros [= <- _ _]. split; [reflexivity | assumption].
    - destruct (localPart _ _ _ _) as [[[] st3]|p|].
      + destruct b; [intros H; discriminate H|].
        intros [= <- _ _]. split; [reflexivity | assumption].
      + intros H; discriminate H.
      + intros H; discriminate H.
    - intros H; discriminate H.
    - intros H; discriminate H. }
  destruct Hm as [Hmu Hd]. exists (HelmDriver m). split; [assumption|].
  intros getter. subst getter. split.
  - pose proof (providerConfigure_credentials_unset _ _ _ _ _ _ _ _ H) as Hc.
    destruct (ConfigFlags_ m) as [a|]; simpl; [|tauto].
    destruct Hc as (cf & -> & _). split; intros Hn; discriminate Hn.
  - apply (GetHelmConfiguration_eq _ _ _ _ _ _ Hmu).
Qed.

Lemma configured_meta_usable_witness :
  exists d m e st' driver,
    schemaData ∅ opFields blockEmpty = Some d /\
    providerConfigure expandOp ∅ d "0.12" st0 = Return ((Some m, e), st') /\
    Get d "helm_driver" = VString driver /\
    let getter := ConfigFlags_ m ≫= (fun a => heap st' !! a) in
    (getter = None <-> ConfigFlags_ m = None) /\
    GetHelmConfiguration string "" initByDriver m "ops" st' =
    match initByDriver (trace st' ++ [EvLock])%list "" getter "ops" driver with
    | Return r =>
        Return ((m, match snd r with
                    | Some err => (None, Some err)
                    | None => (Some (fst r), None)
                    end),
                mkState (trace st' ++ [EvLock; EvInit getter "ops" driver; EvUnlock])%list
                        (heap st'))
    | Panic p => Panic p
    | Blocked => Blocked
    end.
Proof.
  pose (d := default blockEmpty (schemaData ∅ opFields blockEmpty)).
  assert (Hd : schemaData ∅ opFields blockEmpty = Some d) by (vm_compute; reflexivity).
  destruct (providerConfigure expandOp ∅ d "0.12" st0)
    as [[[[m|] e] st']|p|] eqn:H; try (vm_compute in H; discriminate H).
  destruct (configured_meta_usable expandOp ∅ d "0.12" st0 m e st'
              string "" initByDriver "ops" H) as (driver & Hg & Hc).
  exists d, m, e, st', driver. split; [exact Hd|]. split; [exact H|].
  split; [exact Hg | exact Hc].
Defined.

(** ** Concurrent calls make progress *)

(** Either some caller has not started, or all have returned. *)
Lemma callers_waiting (Configuration : Type) (zero : Configuration)
    (Init : list event -> Configuration -> option ConfigFlags -> string -> string ->
            outcome (Configuration * option error))
    (l : list (Steps (option Configuration * option error))) :
  (forall i body, l !! i = Some body ->
     (exists namespace,
        body = GetHelmConfigurationSteps Configuration zero Init namespace) \/
     (exists result, body = Done result)) ->
  (exists i namespace,
     l !! i = Some (GetHelmConfigurationSteps Configuration zero Init namespace)) \/
  (forall i body, l !! i = Some body -> exists result, body = Done result).
Proof.
  induction l as [|b l IH]; intros H.
  - right. intros i body Hi. destruct i; discriminate Hi.
  - destruct (H 0 b eq_refl) as [[ns ->]|[r ->]]; [left; exists 0, ns; reflexivity|].
    destruct IH as [(i & ns & Hi)|Hd]; [intros i body Hi; exact (H (S i) body Hi)| |].
    + left. exists (S i), ns. exact Hi.
    + right. intros [|i] body Hi; [injection Hi as <-; eauto|]. exact (Hd i body Hi).
Qed.

(** X12: concurrent calls of [GetHelmConfiguration] on one [Meta] cannot
    get stuck, provided [Init] returns on the [ConfigFlags] and the driver
    of that [Meta].  In every world the callers can reach, a held mutex is
    held by a caller that is still in its body, about to call [Init] or to
    release the mutex (it is never left locked by a caller that has
    returned), and unless every caller has returned, some caller can move:
    the holder calls [Init] or releases the mutex, or, the mutex being
    free, a waiting caller takes it. *)
Theorem callers_progress (Configuration : Type) (zero : Configuration)
    (Init : list event -> Configuration -> option ConfigFlags -> string -> string ->
            outcome (Configuration * option error))
    (m : Meta) (st : State) (namespaces : list string)
    (w : World (option Configuration * option error)) :
  Mutex m = false ->
  (forall tr namespace, exists r,
     Init tr zero (ConfigFlags_ m ≫= (fun a => heap st !! a)) namespace (HelmDriver m) =
     Return r) ->
  reachable (initial Configuration zero Init m st namespaces) w ->
  (Mutex (shared w) = true ->
   exists k body, callers w !! k = Some body /\ holding Configuration zero Init body) /\
  ((forall i body, callers w !! i = Some body -> exists result, body = Done result) \/
   (exists w', step w w')).
Proof.
  intros Hm HInit Hr.
  destruct (reachable_consistent _ _ _ _ _ _ _ Hm Hr)
    as (Hsh & Hheap & _ & _ & _ & Hpos).
  destruct (holderAfter (history w)) as [[k|]|]; [| |contradiction].
  - destruct Hpos as (_ & _ & (body & Hk & Hhold) & _).
    split; [intros _; eauto|]. right.
    destruct Hhold as [[ns ->]|[r ->]].
    + pose proof (move_calling _ _ _ w k ns Hk) as Hmove. cbv zeta in Hmove.
      assert (Hg : ConfigFlags_ (shared w) = ConfigFlags_ m) by (rewrite Hsh; reflexivity).
      assert (Hd : HelmDriver (shared w) = HelmDriver m) by (rewrite Hsh; reflexivity).
      destruct (HInit (trace (state w)) ns) as [r Hret].
      rewrite Hg, Hd, Hheap, Hret in Hmove. eexists. exists k. exact Hmove.
    + eexists. exists k. apply (move_leaving _ w k r Hk).
  - destruct Hpos as [Hfree Hout]. split; [intros Hh; congruence|].
    destruct (callers_waiting Configuration zero Init (callers w)) as [(i & ns & Hi)|Hd].
    + intros i body Hi. destruct (Hout i body Hi) as [(ns & -> & _)|(r & -> & _)]; eauto.
    + right. eexists. exists i. rewrite (move_start _ _ _ w i ns Hi), Hfree. reflexivity.
    + left. exact Hd.
Qed.

Lemma worldBusy_reachable : reachable worldStart worldBusy.
Proof. apply (run_reachable [0]). vm_compute. reflexivity. Qed.

Lemma callers_progress_witness :
  reachable worldStart worldBusy /\
  (Mutex (shared worldBusy) = true ->
   exists k body, callers worldBusy !! k = Some body /\ holding string "" initByDriver body) /\
  ((forall i body, callers worldBusy !! i = Some body -> exists result, body = Done result) \/
   (exists w', step worldBusy w')).
Proof.
  split; [exact worldBusy_reachable|].
  apply (callers_progress string "" initByDriver metaReady stReady ["ops"; "dev"; "qa"]).
  - reflexivity.
  - intros tr namespace. eexists. reflexivity.
  - exact worldBusy_reachable.
Defined.

(** ** What the settings hold, and what the Terraform version does *)

(** X13: the settings of a returned [Meta] mirror the top-level attributes:
    each field is what [d.Get] reads at its attribute, so the tests of [ok]
    in [buildSettings] make no difference to the result (an attribute that
    is not [ok] reads as the empty string, which is what the field holds
    then). *)
Theorem configured_settings_mirror Expand env d tv st m e st' :
  providerConfigure Expand env d tv st = Return ((Some m, e), st') ->
  exists s,
    Settings m = Some s /\
    Get d "debug" = VBool (Debug s) /\
    Get d "plugins_path" = VString (PluginsDirectory s) /\
    Get d "registry_config_path" = VString (RegistryConfig s) /\
    Get d "repository_config_path" = VString (RepositoryConfig s) /\
    Get d "repository_cache" = VString (RepositoryCache s).
Proof.
  intros H.
  assert (Hm : exists s, helmSettings d = Return s /\ Settings m = Some s).
  { revert H. destruct (providerConfigure_eq Expand env d tv) as (s & h & Hs & Hh & ->).
    generalize (existsb (present d env) credentialFields). intros b.
    destruct (kubeconfigPart _ _ _ _ _) as [[[err|] st2]|p|].
    - intros [= <- _ _]. exists s. split; [assumption | reflexivity].
    - destruct (localPart _ _ _ _) as [[[] st3]|p|].
      + destruct b; [intros H; discriminate H|].
        intros [= <- _ _]. exists s. split; [assumption | reflexivity].
      + intros H; discriminate H.
      + intros H; discriminate H.
    - intros H; discriminate H.
    - intros H; discriminate H. }
  destruct Hm as (s & Hs & Hset).
  destruct (helmSettings_Get d) as (s' & Hs' & Hget).
  rewrite Hs in Hs'. injection Hs' as <-.
  exists s. split; assumption.
Qed.

Lemma configured_settings_mirror_witness :
  exists m e st' s,
    providerConfigure expandOp ∅ blockContext "0.12" st0 = Return ((Some m, e), st') /\
    Settings m = Some s /\
    Get blockContext "debug" = VBool (Debug s) /\
    Get blockContext "plugins_path" = VString (PluginsDirectory s) /\
    Get blockContext "registry_config_path" = VString (RegistryConfig s) /\
    Get blockContext "repository_config_path" = VString (RepositoryConfig s) /\
    Get blockContext "repository_cache" = VString (RepositoryCache s).
Proof.
  destruct (providerConfigure expandOp ∅ blockContext "0.12" st0)
    as [[[[m|] e] st']|p|] eqn:H; try (vm_compute in H; discriminate H).
  destruct (configured_settings_mirror expandOp ∅ blockContext "0.12" st0 m e st' H)
    as (s & Hs).
  exists m, e, st', s. split; [reflexivity | exact Hs].
Defined.

(** X14: the Terraform version has no effect on provider configuration:
    [ConfigureFunc] replaces an empty version by a default and hands it to
    [providerConfigure], which never reads it.  Two providers that differ in
    their [TerraformVersion] only are configured alike. *)
Theorem terraform_version_ignored Expand env tv1 tv2 d st :
  ConfigureFunc Expand env tv1 d st = ConfigureFunc Expand env tv2 d st.
Proof. unfold ConfigureFunc, providerConfigure. reflexivity. Qed.
